(** * Isolation-proof HTTP API: a shallow embedding of [isolation_proof/api.py]

    The handlers [do_GET] and [do_POST], the bearer-token authentication and
    the sandbox configuration are embedded as Rocq functions over an explicit
    filesystem state.  Python library calls whose code is not part of the
    module ([json.dumps], [json.loads], the SHA-256 digest) and the methods of
    the sibling modules [safefs], [core] and [aggregate] are either fields of
    the class [Externals] or definitions marked as modelled from the
    specification. *)

From stdpp Require Import gmap strings list fin_maps pretty.
From Stdlib Require Import ZArith Ascii.
From Stdlib Require String.

Local Open Scope Z_scope.

(** ** Python [str] operations

    A Python [str] is modelled as a Rocq [string]; its characters are the code
    points below 256 (header values are Latin-1 decoded by [http.server]). *)

Module PyStr.

(** [str.isspace] on a single character, for code points below 256:
    U+0009..U+000D, U+001C..U+0020, U+0085 and U+00A0. *)
Definition isspace (c : ascii) : bool :=
  let n := N_of_ascii c in
  ((9 <=? n) && (n <=? 13) || (28 <=? n) && (n <=? 32) ||
   (n =? 133) || (n =? 160))%N.

Fixpoint lstrip_by (p : ascii → bool) (s : string) : string :=
  match s with
  | String c s' => if p c then lstrip_by p s' else s
  | EmptyString => EmptyString
  end.

Fixpoint rstrip_by (p : ascii → bool) (s : string) : string :=
  match s with
  | EmptyString => EmptyString
  | String c s' =>
      match rstrip_by p s' with
      | EmptyString => if p c then EmptyString else String c EmptyString
      | r => String c r
      end
  end.

(** [s.strip()] *)
Definition strip (s : string) : string :=
  rstrip_by isspace (lstrip_by isspace s).

(** [s.rstrip(c)] for a one-character argument *)
Definition rstrip_char (c : ascii) (s : string) : string :=
  rstrip_by (λ x, bool_decide (x = c)) s.

(** [s.startswith(prefix)] *)
Fixpoint startswith (prefix s : string) : bool :=
  match prefix, s with
  | EmptyString, _ => true
  | String a p', String b s' => bool_decide (a = b) && startswith p' s'
  | String _ _, EmptyString => false
  end.

(** [s[n:]] *)
Fixpoint drop (n : nat) (s : string) : string :=
  match n, s with
  | O, _ => s
  | S n', String _ s' => drop n' s'
  | S _, EmptyString => EmptyString
  end.

(** [s.split(sep)] for a one-character separator; never returns [[]]. *)
Fixpoint split (sep : ascii) (s : string) : list string :=
  match s with
  | EmptyString => [EmptyString]
  | String c s' =>
      if bool_decide (c = sep) then EmptyString :: split sep s'
      else match split sep s' with
           | h :: t => String c h :: t
           | [] => [String c EmptyString]
           end
  end.

(** [s.split()]: the maximal runs of non-whitespace characters. *)
Fixpoint split_ws (s : string) : list string :=
  match s with
  | EmptyString => []
  | String c s' =>
      if isspace c then split_ws s'
      else match s' with
           | EmptyString => [String c EmptyString]
           | String c' _ =>
               if isspace c' then String c EmptyString :: split_ws s'
               else match split_ws s' with
                    | h :: t => String c h :: t
                    | [] => [String c EmptyString]
                    end
           end
  end.

(** [s[:n]] *)
Fixpoint take (n : nat) (s : string) : string :=
  match n, s with
  | S n', String c s' => String c (take n' s')
  | _, _ => EmptyString
  end.

(** Truthiness of a [str]: the empty string is falsy. *)
Definition truthy (s : string) : bool :=
  match s with EmptyString => false | _ => true end.

End PyStr.

(** ** JSON values

    The result of [json.loads].  A Python [dict] compares by content, not by
    insertion order, and the module only ever serialises with
    [sort_keys=True]; it is modelled as a finite map. *)

#[warnings="-register-all"]
Inductive json : Type :=
  | JNull
  | JBool (b : bool)
  | JInt (z : Z)
  | JFloat (bits : Z)
  | JStr (s : string)
  | JList (l : list json)
  | JDict (m : gmap string json).

(** [isinstance(v, dict)] *)
Definition is_dict (v : json) : bool :=
  match v with JDict _ => true | _ => false end.

(** [entry.get(key)]: a missing key yields [None], the JSON null. *)
Definition dict_get (m : gmap string json) (key : string) : json :=
  default JNull (m !! key).

(** ** Exceptions and responses *)

(** The exception classes the handlers meet.  [OtherError] stands for every
    other exception ([OSError], [IndexError], ...); like
    [IntegrityViolation] it reaches the final [except Exception] clause. *)
Inductive exn : Type :=
  | AuthError (msg : string)
  | SandboxViolation (msg : string)
  | ProjectionError (msg : string)
  | ValueError (msg : string)
  | IntegrityViolation (msg : string)
  | OtherError (msg : string).

(** [str(e)] *)
Definition str_of_exn (e : exn) : string :=
  match e with
  | AuthError m | SandboxViolation m | ProjectionError m
  | ValueError m | IntegrityViolation m | OtherError m => m
  end.

Inductive result (A : Type) : Type :=
  | Ok (a : A)
  | Raise (e : exn).
Arguments Ok {A} a.
Arguments Raise {A} e.

#[global] Instance result_ret : MRet result := λ A a, Ok a.
#[global] Instance result_bind : MBind result := λ A B f m,
  match m with Ok a => f a | Raise e => Raise e end.

(** What [_json_response(handler, status, payload)] sends. *)
Record Response : Type := mkResponse {
  status : Z;
  payload : json;
}.

Definition _json_response (st : Z) (p : json) : Response := mkResponse st p.

(** The payload [{"error": tag, "message": str(e)}] of every [except] clause. *)
Definition error_payload (tag : string) (e : exn) : json :=
  JDict {[ "error" := JStr tag; "message" := JStr (str_of_exn e) ]}.

(** ** Paths

    A [pathlib.Path] is modelled as the list of components of an absolute
    POSIX path. *)

Abbreviation path := (list string).

Module Path.

(** The components a string contributes to a path: [pathlib] drops empty
    and ["."] components and keeps [".."]. *)
Definition parts (s : string) : list string :=
  filter (λ c, c ≠ "" ∧ c ≠ ".") (PyStr.split "/" s).

(** [p / s]: an absolute right operand replaces the left one. *)
Definition join (p : path) (s : string) : path :=
  if PyStr.startswith "/" s then parts s else p ++ parts s.

(** [p.parent]; the root is its own parent. *)
Definition parent (p : path) : path := removelast p.

(** [p.resolve()] on a filesystem without symbolic links: [".."]
    components are collapsed lexically, and [".."] at the root stays at
    the root. *)
Definition resolve_step (acc : path) (c : string) : path :=
  if decide (c = "..") then removelast acc else acc ++ [c].

Definition resolve (p : path) : path := fold_left resolve_step p [].

(** [p] is [root] or below it (Python's [is_relative_to]). *)
Definition within (root p : path) : bool :=
  bool_decide (root `prefix_of` p).

(** The non-empty prefixes of [p], shortest first: the directories
    [mkdir(parents=True)] visits. *)
Fixpoint ancestors_and_self (p : path) : list path :=
  match p with
  | [] => []
  | c :: r => [c] :: map (cons c) (ancestors_and_self r)
  end.

End Path.

(** ** Filesystem state

    A filesystem snapshot maps canonical paths to nodes.  The root directory
    [[]] always exists. *)

Inductive node : Type :=
  | File (content : string)
  | Dir.

#[global] Instance node_eq_dec : EqDecision node.
Proof. solve_decision. Defined.

Abbreviation FS := (gmap (list string) node).

Module Fs.

Definition lookup_node (fs : FS) (p : path) : option node :=
  match p with
  | [] => Some Dir
  | _ => fs !! p
  end.

(** [p.exists()] *)
Definition exists_ (fs : FS) (p : path) : bool :=
  bool_decide (is_Some (lookup_node fs (Path.resolve p))).

(** [p.is_file()] *)
Definition is_file (fs : FS) (p : path) : bool :=
  match lookup_node fs (Path.resolve p) with
  | Some (File _) => true
  | _ => false
  end.

(** [p.read_text()] / [p.read_bytes()] *)
Definition read (fs : FS) (p : path) : result string :=
  match lookup_node fs (Path.resolve p) with
  | Some (File c) => Ok c
  | Some Dir => Raise (OtherError "[Errno 21] Is a directory")
  | None => Raise (OtherError "[Errno 2] No such file or directory")
  end.

(** Some ancestor of [p], or [p] itself, is a regular file. *)
Definition blocked_by_file (p : path) (fs : FS) : bool :=
  existsb (λ d, match fs !! d with Some (File _) => true | _ => false end)
          (Path.ancestors_and_self p).

(** [fs] with every directory on the way to [p], and [p] itself, present. *)
Definition make_dirs (p : path) (fs : FS) : FS :=
  foldr (λ d acc, <[d := Dir]> acc) fs (Path.ancestors_and_self p).

(** [p.mkdir(parents=True, exist_ok=True)] for a resolved [p]: fails,
    changing nothing, when [p] or one of its ancestors is a regular file;
    otherwise every missing directory on the way is created. *)
Definition mkdir_parents (p : path) (fs : FS) : result FS :=
  if blocked_by_file p fs then Raise (OtherError "[Errno 17] File exists")
  else Ok (make_dirs p fs).

(** [p.open("a")] for a resolved [p] whose parent directory exists: the
    current content of the file, the empty string for a file that the call
    creates. *)
Definition open_append (p : path) (fs : FS) : result string :=
  match lookup_node fs p with
  | Some (File c) => Ok c
  | Some Dir => Raise (OtherError "[Errno 21] Is a directory")
  | None => Ok ""
  end.

(** [d.iterdir()]: the entries directly below [d], in the snapshot's
    traversal order. *)
Definition is_child_of (d p : path) : Prop :=
  p ≠ [] ∧ Path.parent p = d.

#[global] Instance is_child_of_dec d p : Decision (is_child_of d p).
Proof. unfold is_child_of. apply _. Defined.

Definition iterdir (fs : FS) (d : path) : result (list path) :=
  match lookup_node fs (Path.resolve d) with
  | Some Dir =>
      Ok (filter (is_child_of (Path.resolve d)) (map fst (map_to_list fs)))
  | Some (File _) => Raise (OtherError "[Errno 20] Not a directory")
  | None => Raise (OtherError "[Errno 2] No such file or directory")
  end.

(** A well-formed snapshot: no name is [".."], and every entry lies in a
    directory of the snapshot or directly below the root. *)
Definition wf (fs : FS) : Prop :=
  map_Forall (λ k _, (".." ∉ k) ∧
                     (Path.parent k = [] ∨ fs !! Path.parent k = Some Dir)) fs.

#[global] Instance wf_dec (fs : FS) : Decision (wf fs).
Proof. unfold wf. apply _. Defined.

End Fs.

(** ** Requests and configuration *)

(** What the handlers read from [BaseHTTPRequestHandler]. *)
Record Request : Type := mkRequest {
  authorization : option string;   (* self.headers.get("Authorization") *)
  url_path : string;               (* urlparse(self.path).path *)
  content_length : option string;  (* self.headers.get("Content-Length") *)
  rfile : string;                  (* the bytes available on self.rfile *)
}.

Record ApiConfig : Type := mkApiConfig {
  core_path : path;
  core_hash_path : path;
  data_dir : path;
  tokens : list (string * string);  (* dict items, in insertion order *)
}.

Record ApiState : Type := mkApiState {
  config : ApiConfig;
}.

(** The two fields of [safefs.SandboxFS] that [agent_fs] sets. *)
Record SandboxFS : Type := mkSandboxFS {
  allowed_root : path;
  deny_roots : list path;
}.

(** [core.CoreDataset(path=..., expected_sha256=...)] *)
Record CoreDataset : Type := mkCoreDataset {
  dataset_path : path;
  expected_sha256 : string;
}.

(** [_bearer_token(handler)] *)
Definition _bearer_token (req : Request) : option string :=
  match authorization req with
  | None => None
  | Some auth =>
      if negb (PyStr.truthy auth) then None
      else if negb (PyStr.startswith "Bearer " auth) then None
      else
        let t := PyStr.strip (PyStr.drop (String.length "Bearer ") auth) in
        if PyStr.truthy t then Some t else None
  end.

(** The loop [for principal, t in self.config.tokens.items()] of
    [ApiState.authenticate]. *)
Fixpoint find_principal (items : list (string * string)) (token : string)
  : option string :=
  match items with
  | [] => None
  | (principal, t) :: rest =>
      if bool_decide (t = token) then Some principal
      else find_principal rest token
  end.

(** [ApiState.authenticate(handler)] *)
Definition authenticate (state : ApiState) (req : Request) : result string :=
  match _bearer_token req with
  | None => Raise (AuthError "Missing Authorization: Bearer <token>")
  | Some token =>
      if negb (PyStr.truthy token)
      then Raise (AuthError "Missing Authorization: Bearer <token>")
      else match find_principal (tokens (config state)) token with
           | Some principal => Ok principal
           | None => Raise (AuthError "Invalid token")
           end
  end.

(** [ApiState.agent_fs(agent_id)] *)
Definition agent_fs (state : ApiState) (agent_id : string) : SandboxFS :=
  let agents_root := Path.join (data_dir (config state)) "agents" in
  let allowed := Path.join agents_root agent_id in
  let deny_roots := [Path.parent (core_path (config state)); agents_root] in
  mkSandboxFS allowed deny_roots.

(** [ApiState.expected_core_sha256()]:
    [read_text().strip().split()[0]], an [IndexError] when the companion
    file holds no token. *)
Definition expected_core_sha256 (state : ApiState) (fs : FS) : result string :=
  text ← Fs.read fs (core_hash_path (config state));
  match PyStr.split_ws (PyStr.strip text) with
  | h :: _ => Ok h
  | [] => Raise (OtherError "list index out of range")
  end.

(** [ApiState.core_dataset()] *)
Definition core_dataset (state : ApiState) (fs : FS) : result CoreDataset :=
  expected ← expected_core_sha256 state fs;
  Ok (mkCoreDataset (core_path (config state)) expected).

(** The route test of [do_POST]:
    [parts = [p for p in path.split("/") if p]] has the shape
    [["v1", "agents", agent_id, "entries"]]. *)
Definition route_parts (p : string) : list string :=
  filter (λ c, PyStr.truthy c = true) (PyStr.split "/" p).

Definition entries_route (p : string) : option string :=
  match route_parts p with
  | [p0; p1; agent_id; p3] =>
      if bool_decide (p0 = "v1") && bool_decide (p1 = "agents")
         && bool_decide (p3 = "entries")
      then Some agent_id else None
  | _ => None
  end.

(** ** External calls

    The library functions the module calls, and the one method of
    [safefs.SandboxFS] it calls, whose code is not part of [api.py]. *)
Class Externals : Type := mkExternals {
  (** [int(s)], a [ValueError] for a malformed literal *)
  py_int : string → result Z;
  (** [json.loads(raw.decode("utf-8"))], a [ValueError] for malformed input;
      Python's [None] is [JNull] *)
  json_loads : string → result json;
  (** [json.dumps(v, sort_keys=True, separators=(",", ":"))] *)
  json_dumps : json → string;
  (** the hexadecimal SHA-256 digest of a byte string *)
  sha256_hex : string → string;
  (** the parser [CoreDataset.load] applies to one corpus line *)
  parse_record : string → json;
  (** [SandboxFS._ensure_write_allowed(path)]: [None] when the write is
      allowed, the message of the [SandboxViolation] it raises otherwise *)
  _ensure_write_allowed : SandboxFS → FS → path → option string;
}.

(** The character [\n]. *)
Definition newline : ascii := ascii_of_nat 10.

Section Handlers.
Context `{Externals}.

(** [_read_json(handler)]; the result [None] is [JNull]. *)
Definition _read_json (req : Request) : result json :=
  length ← py_int (match content_length req with
                   | Some s => if PyStr.truthy s then s else "0"
                   | None => "0"
                   end);
  let raw :=
    if bool_decide (length = 0) then ""
    else if bool_decide (length < 0) then rfile req
    else PyStr.take (Z.to_nat length) (rfile req) in
  if negb (PyStr.truthy raw) then Ok JNull else json_loads raw.

(** Modelled from the spec: [core.compute_file_sha256], which is not part of
    this module; "a cryptographic content hash over the corpus file's raw
    bytes". *)
Definition compute_file_sha256 (fs : FS) (p : path) : result string :=
  bytes ← Fs.read fs p;
  Ok (sha256_hex bytes).

(** Modelled from the spec: [CoreDataset.verify_immutable], which is not part
    of this module; the recomputed hash is compared with the expected one as
    a case-sensitive string, and any mismatch is an [IntegrityViolation]. *)
Definition verify_immutable (core : CoreDataset) (fs : FS) : result unit :=
  actual ← compute_file_sha256 fs (dataset_path core);
  if bool_decide (actual = expected_sha256 core) then Ok ()
  else Raise (IntegrityViolation "core dataset hash mismatch").

(** Modelled from the spec: [CoreDataset.load], which is not part of this
    module; "parses the file as one structured record per line (blank lines
    skipped)". *)
Definition load (core : CoreDataset) (fs : FS) : result (list json) :=
  text ← Fs.read fs (dataset_path core);
  Ok (map parse_record
        (filter (λ l, PyStr.strip l ≠ "") (PyStr.split newline text))).

(** The fully written lines of a log: a trailing piece without terminator is
    not one of them. *)
Definition complete_lines (text : string) : list string :=
  removelast (PyStr.split newline text).

(** The entries one log contributes: its complete lines that parse. *)
Definition log_entries (text : string) : list json :=
  omap (λ l, match json_loads l with Ok e => Some e | Raise _ => None end)
       (complete_lines text).

(** The namespace a log belongs to: the name of its directory. *)
Definition namespace_of (log : path) : string :=
  default "" (last (Path.parent log)).

(** The entries of the log at [p], each tagged with the log's namespace; a
    log that cannot be read contributes nothing. *)
Definition tagged_entries (fs : FS) (p : path) : list (string * json) :=
  match Fs.read fs p with
  | Ok text => map (λ e, (namespace_of p, e)) (log_entries text)
  | Raise _ => []
  end.

(** Modelled from the spec: [Aggregator.aggregate], which is not part of this
    module; each log's fully written lines are parsed, malformed lines are
    skipped, and the entries are concatenated in the order of the paths, then
    in file order, each tagged with its namespace. *)
Definition aggregate (fs : FS) (entry_paths : list path) : list (string * json) :=
  p ← entry_paths; tagged_entries fs p.

(** The discovery loop of the [/v1/aggregate] branch. *)
Definition entry_paths (state : ApiState) (fs : FS) : result (list path) :=
  let agents_root := Path.join (data_dir (config state)) "agents" in
  if Fs.exists_ fs agents_root then
    dirs ← Fs.iterdir fs agents_root;
    Ok (filter (λ p, Fs.exists_ fs p && Fs.is_file fs p = true)
          (map (λ agent_dir, Path.join agent_dir "entries.jsonl") dirs))
  else Ok [].

(** [do_GET], up to the [except] clauses. *)
Definition do_GET_body (state : ApiState) (req : Request) (fs : FS)
  : result Response :=
  principal ← authenticate state req;
  let path := PyStr.rstrip_char "/" (url_path req) in
  if bool_decide (path = "/v1/health") then
    Ok (_json_response 200 (JDict {[ "ok" := JBool true ]}))
  else if bool_decide (path = "/v1/core/hash") then
    expected ← expected_core_sha256 state fs;
    actual ← compute_file_sha256 fs (core_path (config state));
    Ok (_json_response 200
          (JDict {[ "expected_sha256" := JStr expected;
                    "actual_sha256" := JStr actual;
                    "matches" := JBool (bool_decide (expected = actual)) ]}))
  else if bool_decide (path = "/v1/core/records") then
    core ← core_dataset state fs;
    _ ← verify_immutable core fs;
    records ← load core fs;
    Ok (_json_response 200 (JDict {[ "records" := JList records ]}))
  else if bool_decide (path = "/v1/aggregate") then
    paths ← entry_paths state fs;
    let out := aggregate fs paths in
    Ok (_json_response 200
          (JDict {[ "entries" := JList (map (λ x, JList [JStr x.1; x.2]) out);
                    "count" := JInt (Z.of_nat (length out)) ]}))
  else Ok (_json_response 404 (JDict {[ "error" := JStr "not_found" ]})).

(** [do_GET]: a GET request changes no file. *)
Definition do_GET (state : ApiState) (req : Request) (fs : FS) : Response :=
  match do_GET_body state req fs with
  | Ok r => r
  | Raise (AuthError _ as e) => _json_response 401 (error_payload "unauthorized" e)
  | Raise e => _json_response 500 (error_payload "server_error" e)
  end.

(** The body of [with out_path.open("a") as f]: every entry is checked and
    then written; [buf] is the file's content so far.  The file is closed,
    and so flushed, when the check of an entry raises. *)
Fixpoint write_entries (entries : list json) (buf : string)
  : string * result unit :=
  match entries with
  | [] => (buf, Ok ())
  | entry :: rest =>
      match entry with
      | JDict m =>
          if negb (is_dict (dict_get m "projection"))
          then (buf, Raise (ProjectionError "Entry missing dict 'projection'"))
          else write_entries rest
                 (buf +:+ json_dumps entry +:+ String newline "")
      | _ => (buf, Raise (ValueError "Each entry must be a JSON object"))
      end
  end.

(** [out_path] of [do_POST] *)
Definition log_path (state : ApiState) (agent_id : string) : path :=
  Path.resolve (Path.join (allowed_root (agent_fs state agent_id)) "entries.jsonl").

(** [do_POST] from [fs = state.agent_fs(agent_id)] on, for the entries of the
    request. *)
Definition append_entries (state : ApiState) (agent_id : string)
    (entries : list json) (fs : FS) : result Response * FS :=
  let sfs := agent_fs state agent_id in
  let out_path := log_path state agent_id in
  match _ensure_write_allowed sfs fs out_path with
  | Some msg => (Raise (SandboxViolation msg), fs)
  | None =>
      match Fs.mkdir_parents (Path.parent out_path) fs with
      | Raise e => (Raise e, fs)
      | Ok fs1 =>
          match Fs.open_append out_path fs1 with
          | Raise e => (Raise e, fs1)
          | Ok old =>
              let '(buf, r) := write_entries entries old in
              let fs2 := <[out_path := File buf]> fs1 in
              match r with
              | Raise e => (Raise e, fs2)
              | Ok _ =>
                  (Ok (_json_response 201
                         (JDict {[ "ok" := JBool true;
                                   "written" := JInt (Z.of_nat (length entries)) ]})),
                   fs2)
              end
          end
      end
  end.

(** The same write for a resolved [out_path] given from outside: lines 198 to
    211 of [do_POST], whatever path the call of [resolve()] has yielded. *)
Definition append_entries_at (sfs : SandboxFS) (out_path : path)
    (entries : list json) (fs : FS) : result Response * FS :=
  match _ensure_write_allowed sfs fs out_path with
  | Some msg => (Raise (SandboxViolation msg), fs)
  | None =>
      match Fs.mkdir_parents (Path.parent out_path) fs with
      | Raise e => (Raise e, fs)
      | Ok fs1 =>
          match Fs.open_append out_path fs1 with
          | Raise e => (Raise e, fs1)
          | Ok old =>
              let '(buf, r) := write_entries entries old in
              let fs2 := <[out_path := File buf]> fs1 in
              match r with
              | Raise e => (Raise e, fs2)
              | Ok _ =>
                  (Ok (_json_response 201
                         (JDict {[ "ok" := JBool true;
                                   "written" := JInt (Z.of_nat (length entries)) ]})),
                   fs2)
              end
          end
      end
  end.

(** [do_POST], up to the [except] clauses, with the filesystem it leaves. *)
Definition do_POST_body (state : ApiState) (req : Request) (fs : FS)
  : result Response * FS :=
  match authenticate state req with
  | Raise e => (Raise e, fs)
  | Ok principal =>
      let path := PyStr.rstrip_char "/" (url_path req) in
      match entries_route path with
      | Some agent_id =>
          if negb (bool_decide (principal = agent_id))
          then (Raise (AuthError "Token not authorized for this agent namespace"), fs)
          else
            match _read_json req with
            | Raise e => (Raise e, fs)
            | Ok JNull =>
                (Ok (_json_response 400
                       (JDict {[ "error" := JStr "bad_request";
                                 "message" := JStr "Missing JSON body" ]})), fs)
            | Ok (JList entries) => append_entries state agent_id entries fs
            | Ok (JDict m) => append_entries state agent_id [JDict m] fs
            | Ok _ =>
                (Ok (_json_response 400
                       (JDict {[ "error" := JStr "bad_request";
                                 "message" := JStr "Body must be object or list" ]})), fs)
            end
      | None => (Ok (_json_response 404 (JDict {[ "error" := JStr "not_found" ]})), fs)
      end
  end.

(** The [except] clauses of [do_POST]. *)
Definition post_response (r : result Response) : Response :=
  match r with
  | Ok resp => resp
  | Raise (AuthError _ as e) => _json_response 401 (error_payload "unauthorized" e)
  | Raise (SandboxViolation _ as e) | Raise (ProjectionError _ as e)
  | Raise (ValueError _ as e) => _json_response 400 (error_payload "bad_request" e)
  | Raise e => _json_response 500 (error_payload "server_error" e)
  end.

(** [do_POST]: the response and the filesystem after the request. *)
Definition do_POST (state : ApiState) (req : Request) (fs : FS) : Response * FS :=
  let '(r, fs') := do_POST_body state req fs in (post_response r, fs').

End Handlers.

(** ** Observables used in the statements *)

(** The failure kind a response surfaces: its status code together with the
    ["error"] member of its payload. *)
Definition surfaced_kind (r : Response) : Z * json :=
  (status r, match payload r with JDict m => dict_get m "error" | _ => JNull end).

(** The ["message"] member of an error payload. *)
Definition surfaced_message (r : Response) : json :=
  match payload r with JDict m => dict_get m "message" | _ => JNull end.

(** The response to a request whose principal is not the namespace. *)
Definition namespace_mismatch_response : Response :=
  _json_response 401
    (error_payload "unauthorized"
       (AuthError "Token not authorized for this agent namespace")).

(** The surfaced kind of the [except AuthError] clause. *)
Definition kind_unauthorized : Z * json := (401, JStr "unauthorized").

(** The exception the write loop raises for an entry it rejects. *)
Definition entry_error (e : json) : exn :=
  match e with
  | JDict _ => ProjectionError "Entry missing dict 'projection'"
  | _ => ValueError "Each entry must be a JSON object"
  end.

(** An agent identifier that names a directory: one path component other
    than ["."] and [".."]. *)
Definition namespace_name (agent_id : string) : Prop :=
  PyStr.split "/" agent_id = [agent_id] ∧
  agent_id ≠ "" ∧ agent_id ≠ "." ∧ agent_id ≠ "..".

(** [a] and [b] are not disjoint: one is the other or an ancestor of it. *)
Definition overlapping (a b : path) : Prop :=
  a `prefix_of` b ∨ b `prefix_of` a.

(** The disjointness the data model asks of a sandbox. *)
Definition roots_disjoint (sfs : SandboxFS) : Prop :=
  ∀ d, d ∈ deny_roots sfs → ¬ overlapping (allowed_root sfs) d.

(** The check the write loop applies to one entry. *)
Definition entry_accepted (e : json) : bool :=
  match e with
  | JDict m => is_dict (dict_get m "projection")
  | _ => false
  end.

(** The content of a namespace's log; a log that does not exist holds
    nothing. *)
Definition log_content (state : ApiState) (agent_id : string) (fs : FS) : string :=
  match fs !! log_path state agent_id with
  | Some (File c) => c
  | _ => ""
  end.

(** The write of [do_POST] goes through: the guard allows the log's path, the
    directories above it can be made, and the path is not a directory. *)
Definition write_admitted `{Externals} (state : ApiState) (agent_id : string)
    (fs : FS) : Prop :=
  _ensure_write_allowed (agent_fs state agent_id) fs (log_path state agent_id) = None ∧
  Fs.blocked_by_file (Path.parent (log_path state agent_id)) fs = false ∧
  fs !! log_path state agent_id ≠ Some Dir.

(** The directory of all namespaces, as the filesystem resolves it. *)
Definition agents_dir (state : ApiState) : path :=
  Path.resolve (Path.join (data_dir (config state)) "agents").

(** A log the discovery loop of [/v1/aggregate] finds in a snapshot: a regular
    file [entries.jsonl] in a listed child of the namespaces directory. *)
Definition discovered (state : ApiState) (f : FS) (p : path) : Prop :=
  ∃ d c, p = d ++ ["entries.jsonl"] ∧
         Fs.is_child_of (agents_dir state) d ∧
         is_Some (f !! d) ∧ f !! p = Some (File c).

(** The entries a request submits: the list of its body, or the one object
    of its body. *)
Definition submitted_entries `{Externals} (req : Request) : option (list json) :=
  match _read_json req with
  | Ok (JList entries) => Some entries
  | Ok (JDict m) => Some [JDict m]
  | _ => None
  end.

(** The sequence [out] of the [/v1/aggregate] branch. *)
Definition aggregated_view `{Externals} (state : ApiState) (fs : FS)
  : result (list (string * json)) :=
  paths ← entry_paths state fs;
  Ok (aggregate fs paths).

(** [s] holds no line terminator. *)
Definition single_line (s : string) : Prop :=
  PyStr.split newline s = [s].

(** A log whose last line, if any, is terminated. *)
Definition log_terminated (text : string) : Prop :=
  text = "" ∨ ∃ t, text = t +:+ String newline "".

(** An entry that [json.dumps] writes on one line and [json.loads] reads
    back. *)
Definition serialisable `{Externals} (e : json) : Prop :=
  single_line (json_dumps e) ∧ json_loads (json_dumps e) = Ok e.

(** Every character of [s] is whitespace. *)
Fixpoint all_space (s : string) : bool :=
  match s with
  | EmptyString => true
  | String c s' => PyStr.isspace c && all_space s'
  end.

(** No character of [s] is whitespace. *)
Fixpoint no_space (s : string) : bool :=
  match s with
  | EmptyString => true
  | String c s' => negb (PyStr.isspace c) && no_space s'
  end.

(** [s] is empty or begins with whitespace. *)
Definition space_led (s : string) : bool :=
  match s with
  | EmptyString => true
  | String c _ => PyStr.isspace c
  end.

(** The text [do_POST] appends for a list of entries: one serialised line
    each. *)
Fixpoint lines_of `{Externals} (entries : list json) : string :=
  match entries with
  | [] => ""
  | e :: rest => json_dumps e +:+ String newline "" +:+ lines_of rest
  end.

(** ** A sample instance of the external calls, for the examples *)

Module Sample.

(** Decimal literals only. *)
Fixpoint digits (s : string) (acc : Z) : option Z :=
  match s with
  | EmptyString => Some acc
  | String c s' =>
      match Ascii.is_nat c with
      | Some d => digits s' (10 * acc + Z.of_nat d)
      | None => None
      end
  end.

Definition int (s : string) : result Z :=
  match s with
  | EmptyString => Raise (ValueError "invalid literal for int()")
  | _ => match digits s 0 with
         | Some z => Ok z
         | None => Raise (ValueError "invalid literal for int()")
         end
  end.

(** The entry [{"projection": {"state": s}}]. *)
Definition observation (s : string) : json :=
  JDict {[ "projection" := JDict {[ "state" := JStr s ]} ]}.

(** A miniature wire format standing in for JSON text: [S:x] is the entry
    [observation x], [P:x] an entry whose projection is the string [x],
    [T:x] the string [x], and the [;]-separated items after a leading [L] form
    a list. *)
Definition loads_item (s : string) : result json :=
  if PyStr.startswith "S:" s then Ok (observation (PyStr.drop 2 s))
  else if PyStr.startswith "P:" s
       then Ok (JDict {[ "projection" := JStr (PyStr.drop 2 s) ]})
  else if PyStr.startswith "T:" s then Ok (JStr (PyStr.drop 2 s))
  else Raise (ValueError "Expecting value").

Fixpoint loads_items (l : list string) : result (list json) :=
  match l with
  | [] => Ok []
  | s :: r =>
      match loads_item s, loads_items r with
      | Ok e, Ok es => Ok (e :: es)
      | Raise e, _ | _, Raise e => Raise e
      end
  end.

Definition loads (s : string) : result json :=
  if PyStr.startswith "L" s
  then es ← loads_items (PyStr.split ";" (PyStr.drop 1 s)); Ok (JList es)
  else loads_item s.

Definition dumps (v : json) : string :=
  match v with
  | JStr s => "T:" +:+ s
  | JDict m =>
      match m !! "projection" with
      | Some (JDict p) =>
          match p !! "state" with
          | Some (JStr s) => "S:" +:+ s
          | _ => "S:"
          end
      | Some (JStr s) => "P:" +:+ s
      | _ => "T:"
      end
  | _ => "T:"
  end.

(** A checksum standing in for SHA-256: the sum of the character codes. *)
Fixpoint checksum (s : string) : nat :=
  match s with
  | EmptyString => O
  | String c s' => (nat_of_ascii c + checksum s')%nat
  end.

Definition digest (s : string) : string :=
  String.string_of_list_ascii (replicate (checksum s `mod` 7) "a"%char)
  +:+ String.string_of_list_ascii (replicate (String.length s) "0"%char).

(** A guard that allows the writes below the resolved allowed root. *)
Definition guard (sfs : SandboxFS) (fs : FS) (p : path) : option string :=
  if Path.within (Path.resolve (allowed_root sfs)) p then None
  else Some "write outside allowed root".

Definition externals : Externals :=
  mkExternals int loads dumps digest JStr guard.

(** A guard in which a deny root always wins: it refuses every path at or
    below a resolved deny root. *)
Definition deny_guard (sfs : SandboxFS) (fs : FS) (p : path) : option string :=
  if existsb (λ d, Path.within (Path.resolve d) p) (deny_roots sfs)
  then Some "write inside a denied root"
  else guard sfs fs p.

Definition strict_externals : Externals :=
  mkExternals int loads dumps digest JStr deny_guard.

Definition cfg : ApiConfig :=
  mkApiConfig ["srv"; "core"; "core.jsonl"] ["srv"; "core"; "core.sha256"]
    ["srv"; "data"] [("alpha", "token-a"); ("beta", "token-b")].

Definition state : ApiState := mkApiState cfg.

(** A request with a bearer token and a body. *)
Definition request (token url body : string) : Request :=
  mkRequest (Some ("Bearer " +:+ token)) url
    (Some (pretty (String.length body))) body.

(** A request without credentials. *)
Definition anonymous (url : string) : Request :=
  mkRequest None url None "".

End Sample.

(** ** Example requests and snapshots *)

Module Examples.
Import Sample.

Definition alpha_to_beta : Request :=
  request "token-a" "/v1/agents/beta/entries" "S:S3".

Definition wrong_token : Request :=
  request "token-x" "/v1/agents/beta/entries" "S:S3".

Definition alpha_mixed_batch : Request :=
  request "token-a" "/v1/agents/alpha/entries" "LS:S1;P:x;S:S2".

Definition alpha_batch : Request :=
  request "token-a" "/v1/agents/alpha/entries/" "LS:S2;S:S3".

Definition alpha_single : Request :=
  request "token-a" "/v1/agents/alpha/entries" "S:S3".

Definition alpha_single_listed : Request :=
  request "token-a" "/v1/agents/alpha/entries" "LS:S3".

(** The snapshot after [alpha] has submitted one entry to an empty data
    directory. *)
Definition one_entry : FS :=
  (@do_POST externals state
     (request "token-a" "/v1/agents/alpha/entries" "S:S1") ∅).2.

(** A corpus of two records, one blank line between them, and its companion
    hash file. *)
Definition corpus_text : string :=
  "r1" +:+ String newline (String newline "r2").

Definition with_corpus (hash : string) : FS :=
  {[ ["srv"] := Dir; ["srv"; "core"] := Dir;
     ["srv"; "core"; "core.jsonl"] := File corpus_text;
     ["srv"; "core"; "core.sha256"] := File hash ]}.

(** A snapshot in which a regular file stands where the data directory is
    expected. *)
Definition data_is_file : FS :=
  {[ ["srv"] := Dir; ["srv"; "data"] := File "x" ]}.

(** A snapshot in which a regular file stands where the namespaces directory
    is expected. *)
Definition agents_is_file : FS :=
  {[ ["srv"] := Dir; ["srv"; "data"] := Dir;
     ["srv"; "data"; "agents"] := File "x" ]}.

(** A request for [/v1/agents/alpha/entries] without Content-Length, with
    bytes waiting on the connection. *)
Definition alpha_no_length : Request :=
  mkRequest (Some "Bearer token-a") "/v1/agents/alpha/entries" None "S:S3".

(** A credential table in which a principal is named [".."]. *)
Definition parent_state : ApiState :=
  mkApiState
    (mkApiConfig ["srv"; "core"; "core.jsonl"] ["srv"; "core"; "core.sha256"]
       ["srv"; "data"] [("..", "token-up"); (".", "token-here")]).

Definition parent_request : Request :=
  request "token-up" "/v1/agents/../entries" "S:S3".

Definition here_request : Request :=
  request "token-here" "/v1/agents/./entries" "S:S3".

End Examples.

(** ** Authentication *)

Lemma find_principal_sound (items : list (string * string)) (token p : string) :
  find_principal items token = Some p → (p, token) ∈ items.
Proof.
  induction items as [|[q t] items IH]; simpl; [done|].
  case_bool_decide as Ht.
  - intros [= <-]. subst t. apply list_elem_of_here.
  - intros Hf. apply list_elem_of_further, IH, Hf.
Qed.

Lemma find_principal_none (items : list (string * string)) (token : string) :
  find_principal items token = None ↔ ∀ p s, (p, s) ∈ items → s ≠ token.
Proof.
  induction items as [|[q t] items IH]; simpl.
  - split; [|done]. intros _ p s Hin. by apply elem_of_nil in Hin.
  - case_bool_decide as Ht.
    + split; [done|]. intros Hall. exfalso. apply (Hall q t); [|done].
      apply list_elem_of_here.
    + rewrite IH. split.
      * intros Hall p s [[= -> ->]|Hin]%elem_of_cons; [done|]. by eapply Hall.
      * intros Hall p s Hin. eapply Hall. by apply list_elem_of_further.
Qed.

Lemma find_principal_complete (items : list (string * string)) (token p : string) :
  (p, token) ∈ items → ∃ p', find_principal items token = Some p'.
Proof.
  intros Hin. destruct (find_principal items token) as [p'|] eqn:Hf; [eauto|].
  exfalso. by eapply find_principal_none.
Qed.

Lemma find_principal_unique (items : list (string * string)) (token p : string) :
  NoDup items.*2 → (p, token) ∈ items → find_principal items token = Some p.
Proof.
  induction items as [|[q t] items IH]; simpl.
  - intros _ Hin. by apply elem_of_nil in Hin.
  - intros [Hnotin Hnd]%NoDup_cons [[= -> ->]|Hin]%elem_of_cons.
    + by case_bool_decide.
    + case_bool_decide as Ht; [|by apply IH].
      subst t. exfalso. apply Hnotin.
      apply list_elem_of_fmap. by exists (p, token).
Qed.

Lemma _bearer_token_truthy (req : Request) (token : string) :
  _bearer_token req = Some token → PyStr.truthy token = true.
Proof.
  unfold _bearer_token. destruct (authorization req) as [auth|]; [|done].
  destruct (negb (PyStr.truthy auth)); [done|].
  destruct (negb (PyStr.startswith "Bearer " auth)); [done|].
  destruct (PyStr.truthy _) eqn:Ht; [|done]. by intros [= <-].
Qed.

(** What a request must carry for [_bearer_token] to yield a token. *)
Lemma _bearer_token_spec (req : Request) (token : string) :
  _bearer_token req = Some token ↔
  ∃ auth, authorization req = Some auth ∧
          PyStr.startswith "Bearer " auth = true ∧
          token = PyStr.strip (PyStr.drop 7 auth) ∧ token ≠ "".
Proof.
  unfold _bearer_token. split.
  - destruct (authorization req) as [auth|]; [|done].
    destruct (PyStr.truthy auth); [|done]. cbn [negb].
    destruct (PyStr.startswith "Bearer " auth) eqn:Hp; [|done]. cbn [negb].
    change (String.length "Bearer ") with 7%nat.
    destruct (PyStr.strip _) as [|c t] eqn:Hs; [done|]. cbn [PyStr.truthy].
    intros [= <-]. exists auth. by rewrite Hs.
  - intros (auth & -> & Hp & -> & Hne).
    destruct auth as [|a auth]; [done|]. cbn [PyStr.truthy negb].
    rewrite Hp. cbn [negb].
    change (String.length "Bearer ") with 7%nat.
    destruct (PyStr.strip (PyStr.drop 7 (String a auth))); done.
Qed.

Lemma authenticate_find (state : ApiState) (req : Request) (token : string) :
  _bearer_token req = Some token →
  authenticate state req =
    match find_principal (tokens (config state)) token with
    | Some p => Ok p
    | None => Raise (AuthError "Invalid token")
    end.
Proof.
  intros Hb. unfold authenticate. rewrite Hb.
  by rewrite (_bearer_token_truthy _ _ Hb).
Qed.

Lemma authenticate_missing (state : ApiState) (req : Request) :
  _bearer_token req = None →
  authenticate state req = Raise (AuthError "Missing Authorization: Bearer <token>").
Proof. intros Hb. unfold authenticate. by rewrite Hb. Qed.

(** Every failure of [authenticate] is an [AuthError] with one of its two
    messages. *)
Lemma authenticate_raises (state : ApiState) (req : Request) (e : exn) :
  authenticate state req = Raise e →
  e = AuthError "Missing Authorization: Bearer <token>" ∨
  e = AuthError "Invalid token".
Proof.
  unfold authenticate. destruct (_bearer_token req) as [token|].
  - destruct (negb (PyStr.truthy token)); [intros [= <-]; by left|].
    destruct (find_principal _ _); [done|]. intros [= <-]. by right.
  - intros [= <-]. by left.
Qed.

(** C9: a presented bearer token authenticates exactly when it equals a
    secret of the credential table.  A principal that [authenticate] yields is
    bound to that very token; authentication succeeds iff some principal is
    bound to it; when secrets are bound 1:1 the principal yielded is the one
    bound to the token; and a token that differs from every stored secret, a
    proper prefix of one included, is rejected with the [AuthError] that the
    handlers surface as unauthorized. *)
Theorem authenticate_exact_match (state : ApiState) (req : Request) (token : string) :
  _bearer_token req = Some token →
  (∀ p, authenticate state req = Ok p → (p, token) ∈ tokens (config state)) ∧
  ((∃ p, authenticate state req = Ok p) ↔
   (∃ p, (p, token) ∈ tokens (config state))) ∧
  (NoDup (tokens (config state)).*2 →
   ∀ p, authenticate state req = Ok p ↔ (p, token) ∈ tokens (config state)) ∧
  ((∀ p s, (p, s) ∈ tokens (config state) → s ≠ token) →
   authenticate state req = Raise (AuthError "Invalid token")).
Proof.
  intros Hb. rewrite (authenticate_find _ _ _ Hb).
  split_and!.
  - intros p Hp. apply find_principal_sound.
    destruct (find_principal _ _); by simplify_eq.
  - split.
    + intros [p Hp]. exists p. apply find_principal_sound.
      destruct (find_principal _ _); by simplify_eq.
    + intros [p Hin]. destruct (find_principal_complete _ _ _ Hin) as [p' ->].
      by exists p'.
  - intros Hnd p. split.
    + intros Hp. apply find_principal_sound.
      destruct (find_principal _ _); by simplify_eq.
    + intros Hin. by rewrite (find_principal_unique _ _ _ Hnd Hin).
  - intros Hall. apply find_principal_none in Hall. by rewrite Hall.
Qed.

(** ** The gateway's responses *)

Section Gateway.
Context `{Externals}.

Lemma do_GET_unauthenticated (state : ApiState) (req : Request) (fs : FS) (e : exn) :
  authenticate state req = Raise e →
  do_GET state req fs = _json_response 401 (error_payload "unauthorized" e).
Proof.
  intros Ha. unfold do_GET, do_GET_body. rewrite Ha. simpl.
  by destruct (authenticate_raises _ _ _ Ha) as [-> | ->].
Qed.

Lemma do_POST_unauthenticated (state : ApiState) (req : Request) (fs : FS) (e : exn) :
  authenticate state req = Raise e →
  do_POST state req fs = (_json_response 401 (error_payload "unauthorized" e), fs).
Proof.
  intros Ha. unfold do_POST, do_POST_body. rewrite Ha. simpl.
  by destruct (authenticate_raises _ _ _ Ha) as [-> | ->].
Qed.

(** C8, as amended: the health check sits behind the same authentication as
    every other GET route.  A request for [/v1/health] (trailing slashes
    ignored) answers 200 with the liveness flag exactly when it carries a
    valid credential, and 401 otherwise; it never reads the filesystem. *)
Theorem health_check_needs_credential (state : ApiState) (req : Request) (fs : FS) :
  PyStr.rstrip_char "/" (url_path req) = "/v1/health" →
  match authenticate state req with
  | Ok _ => do_GET state req fs = _json_response 200 (JDict {[ "ok" := JBool true ]})
  | Raise e => do_GET state req fs = _json_response 401 (error_payload "unauthorized" e)
  end.
Proof.
  intros Hp. destruct (authenticate state req) as [p|e] eqn:Ha.
  - unfold do_GET, do_GET_body. rewrite Ha. simpl. by rewrite Hp.
  - by apply do_GET_unauthenticated.
Qed.

Lemma do_POST_namespace_mismatch (state : ApiState) (req : Request) (fs : FS)
    (principal agent_id : string) :
  authenticate state req = Ok principal →
  entries_route (PyStr.rstrip_char "/" (url_path req)) = Some agent_id →
  principal ≠ agent_id →
  do_POST state req fs = (namespace_mismatch_response, fs).
Proof.
  intros Ha Hr Hne. unfold do_POST, do_POST_body. rewrite Ha, Hr.
  by rewrite bool_decide_eq_false_2.
Qed.

(** C6, as amended: a valid credential aimed at another principal's
    namespace is answered with status 401 and error tag [unauthorized], the
    same surfaced kind as a missing or invalid credential; the three cases
    differ in the message only. *)
Theorem namespace_mismatch_surfaced_as_unauthorized
    (state : ApiState) (req : Request) (fs : FS) (principal agent_id : string) :
  authenticate state req = Ok principal →
  entries_route (PyStr.rstrip_char "/" (url_path req)) = Some agent_id →
  principal ≠ agent_id →
  (do_POST state req fs).1 = namespace_mismatch_response ∧
  ∀ (req' : Request) (fs' : FS) (e : exn),
    authenticate state req' = Raise e →
    surfaced_kind (do_POST state req' fs').1 = surfaced_kind (do_POST state req fs).1 ∧
    surfaced_message (do_POST state req' fs').1 ≠ surfaced_message (do_POST state req fs).1.
Proof.
  intros Ha Hr Hne.
  rewrite (do_POST_namespace_mismatch _ _ _ _ _ Ha Hr Hne). split; [done|].
  intros req' fs' e He. rewrite (do_POST_unauthenticated _ _ _ _ He).
  by destruct (authenticate_raises _ _ _ He) as [-> | ->].
Qed.

(** C1, as amended: on the submit route the namespace gate stands before
    every filesystem operation.  A request whose principal differs from the
    namespace is answered with the 401 [unauthorized] response of the
    namespace gate and leaves the filesystem as it was; a request that
    changes the filesystem, or that is answered 201, comes from the principal
    whose identity string equals the namespace identifier. *)
Theorem namespace_gate_before_write
    (state : ApiState) (req : Request) (fs : FS) (principal agent_id : string) :
  authenticate state req = Ok principal →
  entries_route (PyStr.rstrip_char "/" (url_path req)) = Some agent_id →
  (principal ≠ agent_id →
   do_POST state req fs = (namespace_mismatch_response, fs)) ∧
  ((do_POST state req fs).2 ≠ fs → principal = agent_id) ∧
  (status (do_POST state req fs).1 = 201 → principal = agent_id).
Proof.
  intros Ha Hr. split_and!.
  - by apply do_POST_namespace_mismatch.
  - intros Hfs. destruct (decide (principal = agent_id)) as [|Hne]; [done|].
    by rewrite (do_POST_namespace_mismatch _ _ _ _ _ Ha Hr Hne) in Hfs.
  - intros Hst. destruct (decide (principal = agent_id)) as [|Hne]; [done|].
    by rewrite (do_POST_namespace_mismatch _ _ _ _ _ Ha Hr Hne) in Hst.
Qed.

(** ** Strings *)

Lemma string_app_cons (c : ascii) (s t : string) :
  String c s +:+ t = String c (s +:+ t).
Proof. reflexivity. Qed.

Lemma string_app_nil_r (s : string) : s +:+ "" = s.
Proof. induction s as [|c s IH]; [done|]. by rewrite string_app_cons, IH. Qed.

Lemma string_app_assoc (s t u : string) : (s +:+ t) +:+ u = s +:+ t +:+ u.
Proof. induction s as [|c s IH]; [done|]. by rewrite !string_app_cons, IH. Qed.

Lemma string_app_nil_inv (s t : string) : s +:+ t = s → t = "".
Proof.
  induction s as [|c s IH]; [done|]. rewrite string_app_cons. intros [= Hs]. auto.
Qed.

(** ** The write loop *)

Lemma lines_of_app (es es' : list json) :
  lines_of (es ++ es') = lines_of es +:+ lines_of es'.
Proof.
  induction es as [|e es IH]; [done|]. simpl.
  by rewrite IH, !string_app_assoc.
Qed.

Lemma lines_of_nil_inv (es : list json) : lines_of es = "" → es = [].
Proof.
  destruct es as [|e es]; [done|]. simpl.
  destruct (json_dumps e); simpl; [|done]. by rewrite string_app_cons.
Qed.

Lemma write_entries_step (e : json) (rest : list json) (buf : string) :
  entry_accepted e = true →
  write_entries (e :: rest) buf =
  write_entries rest (buf +:+ json_dumps e +:+ String newline "").
Proof.
  destruct e; try done. simpl. by intros ->.
Qed.

Lemma write_entries_reject (e : json) (rest : list json) (buf : string) :
  entry_accepted e = false →
  write_entries (e :: rest) buf = (buf, Raise (entry_error e)).
Proof.
  destruct e; try done. simpl. by intros ->.
Qed.

Lemma write_entries_stop (good : list json) (bad : json) (rest : list json) (buf : string) :
  Forall (λ e, entry_accepted e = true) good →
  entry_accepted bad = false →
  write_entries (good ++ bad :: rest) buf =
  (buf +:+ lines_of good, Raise (entry_error bad)).
Proof.
  intros Hgood Hbad. revert buf.
  induction Hgood as [|e good He _ IH]; intros buf.
  - simpl app. rewrite write_entries_reject by done.
    by rewrite string_app_nil_r.
  - simpl app. rewrite write_entries_step by done. rewrite IH.
    simpl lines_of. by rewrite !string_app_assoc.
Qed.

Lemma write_entries_all (entries : list json) (buf : string) :
  Forall (λ e, entry_accepted e = true) entries →
  write_entries entries buf = (buf +:+ lines_of entries, Ok ()).
Proof.
  intros Hall. revert buf.
  induction Hall as [|e es He _ IH]; intros buf.
  - simpl. by rewrite string_app_nil_r.
  - rewrite write_entries_step by done. rewrite IH.
    simpl lines_of. by rewrite !string_app_assoc.
Qed.

Lemma write_entries_ok_inv (entries : list json) (buf buf' : string) (u : unit) :
  write_entries entries buf = (buf', Ok u) →
  Forall (λ e, entry_accepted e = true) entries.
Proof.
  revert buf. induction entries as [|e es IH]; intros buf; [done|].
  destruct (entry_accepted e) eqn:He.
  - rewrite write_entries_step by done. intros Hw. constructor; eauto.
  - by rewrite write_entries_reject.
Qed.

(** ** Paths *)

Lemma join_entries_jsonl (p : path) :
  Path.join p "entries.jsonl" = p ++ ["entries.jsonl"].
Proof. reflexivity. Qed.

Lemma join_agents (p : path) : Path.join p "agents" = p ++ ["agents"].
Proof. reflexivity. Qed.

Lemma parent_snoc (p : path) (c : string) : Path.parent (p ++ [c]) = p.
Proof. apply removelast_last. Qed.

Lemma resolve_snoc (p : path) (c : string) :
  Path.resolve (p ++ [c]) = Path.resolve_step (Path.resolve p) c.
Proof. unfold Path.resolve. by rewrite fold_left_app. Qed.

Lemma resolve_snoc_name (p : path) (c : string) :
  c ≠ ".." → Path.resolve (p ++ [c]) = Path.resolve p ++ [c].
Proof.
  intros Hc. rewrite resolve_snoc. unfold Path.resolve_step.
  by destruct (decide (c = "..")).
Qed.

Lemma log_path_snoc (state : ApiState) (agent_id : string) :
  log_path state agent_id =
  Path.resolve (allowed_root (agent_fs state agent_id)) ++ ["entries.jsonl"].
Proof.
  unfold log_path. rewrite join_entries_jsonl. by apply resolve_snoc_name.
Qed.

Lemma log_path_parent (state : ApiState) (agent_id : string) :
  Path.parent (log_path state agent_id) =
  Path.resolve (allowed_root (agent_fs state agent_id)).
Proof. rewrite log_path_snoc. apply parent_snoc. Qed.

Lemma log_path_nonempty (state : ApiState) (agent_id : string) :
  log_path state agent_id ≠ [].
Proof. rewrite log_path_snoc. by destruct (Path.resolve _). Qed.

Lemma elem_of_ancestors_and_self (p d : path) :
  d ∈ Path.ancestors_and_self p ↔ d ≠ [] ∧ d `prefix_of` p.
Proof.
  revert d. induction p as [|c p IH]; intros d; simpl.
  - split; [by intros ?%elem_of_nil|].
    intros [Hne Hpre]. by apply prefix_nil_inv in Hpre.
  - rewrite elem_of_cons, list_elem_of_fmap. split.
    + intros [->|(d' & -> & [Hne Hpre]%IH)].
      * split; [done|]. by apply prefix_cons, prefix_nil.
      * split; [done|]. by apply prefix_cons.
    + intros [Hne Hpre]. destruct d as [|c' d]; [done|].
      apply prefix_cons_inv_1 in Hpre as Hc. subst c'.
      apply prefix_cons_inv_2 in Hpre.
      destruct d as [|c'' d]; [by left|]. right.
      exists (c'' :: d). split; [done|]. by apply IH.
Qed.

Lemma log_path_not_ancestor (state : ApiState) (agent_id : string) :
  log_path state agent_id ∉
    Path.ancestors_and_self (Path.parent (log_path state agent_id)).
Proof.
  rewrite elem_of_ancestors_and_self, log_path_parent, log_path_snoc.
  intros [_ Hpre]. apply prefix_length in Hpre.
  rewrite length_app in Hpre. simpl in Hpre. lia.
Qed.

(** ** Directory creation *)

Lemma make_dirs_lookup (p k : path) (fs : FS) :
  Fs.make_dirs p fs !! k =
  if decide (k ∈ Path.ancestors_and_self p) then Some Dir else fs !! k.
Proof.
  unfold Fs.make_dirs. induction (Path.ancestors_and_self p) as [|d l IH]; simpl.
  - done.
  - destruct (decide (d = k)) as [->|Hne].
    + rewrite lookup_insert_eq. rewrite decide_True; [done|]. apply list_elem_of_here.
    + rewrite lookup_insert_ne by done. rewrite IH.
      destruct (decide (k ∈ l)) as [Hin|Hnin].
      * rewrite decide_True; [done|]. by apply list_elem_of_further.
      * rewrite decide_False; [done|]. by intros [->|?]%elem_of_cons.
Qed.

Lemma make_dirs_log (state : ApiState) (agent_id : string) (fs : FS) :
  Fs.make_dirs (Path.parent (log_path state agent_id)) fs !! log_path state agent_id
  = fs !! log_path state agent_id.
Proof.
  rewrite make_dirs_lookup. rewrite decide_False; [done|].
  apply log_path_not_ancestor.
Qed.

Lemma log_content_make_dirs (state : ApiState) (agent_id : string) (fs : FS) :
  log_content state agent_id
    (Fs.make_dirs (Path.parent (log_path state agent_id)) fs)
  = log_content state agent_id fs.
Proof. unfold log_content. by rewrite make_dirs_log. Qed.

Lemma log_content_insert (state : ApiState) (agent_id : string) (fs : FS) (c : string) :
  log_content state agent_id (<[log_path state agent_id := File c]> fs) = c.
Proof. unfold log_content. by rewrite lookup_insert_eq. Qed.

Lemma lookup_node_log (state : ApiState) (agent_id : string) (fs : FS) :
  Fs.lookup_node fs (log_path state agent_id) = fs !! log_path state agent_id.
Proof. rewrite log_path_snoc. by destruct (Path.resolve _). Qed.

(** ** The write path *)

(** The answer to a request that wrote [n] entries. *)
Lemma append_entries_admitted (state : ApiState) (agent_id : string)
    (entries : list json) (fs : FS) :
  write_admitted state agent_id fs →
  append_entries state agent_id entries fs =
  (match (write_entries entries (log_content state agent_id fs)).2 with
   | Ok _ => Ok (_json_response 201
                   (JDict {[ "ok" := JBool true;
                             "written" := JInt (Z.of_nat (length entries)) ]}))
   | Raise e => Raise e
   end,
   <[log_path state agent_id :=
       File (write_entries entries (log_content state agent_id fs)).1]>
     (Fs.make_dirs (Path.parent (log_path state agent_id)) fs)).
Proof.
  intros (Hg & Hb & Hd). unfold append_entries. rewrite Hg.
  unfold Fs.mkdir_parents. rewrite Hb.
  unfold Fs.open_append. rewrite lookup_node_log, make_dirs_log. unfold log_content.
  destruct (fs !! log_path state agent_id) as [[old|]|] eqn:Hf; [|congruence|].
  - by destruct (write_entries entries old) as [buf [u|e]].
  - by destruct (write_entries entries "") as [buf [u|e]].
Qed.

Lemma append_entries_not_admitted (state : ApiState) (agent_id : string)
    (entries : list json) (fs : FS) :
  ¬ write_admitted state agent_id fs →
  ∃ e fs', append_entries state agent_id entries fs = (Raise e, fs') ∧
           log_content state agent_id fs' = log_content state agent_id fs ∧
           match e with
           | SandboxViolation _ | OtherError _ => True
           | _ => False
           end.
Proof.
  intros Hna. unfold append_entries.
  destruct (_ensure_write_allowed _ _ _) as [msg|] eqn:Hg; [by eauto|].
  unfold Fs.mkdir_parents.
  destruct (Fs.blocked_by_file _ _) eqn:Hb; [by eauto|].
  unfold Fs.open_append. rewrite lookup_node_log, make_dirs_log.
  destruct (fs !! log_path state agent_id) as [[old|]|] eqn:Hf.
  - exfalso. apply Hna. split_and!; [done..|]. by rewrite Hf.
  - eexists _, _. split; [done|]. by rewrite log_content_make_dirs.
  - exfalso. apply Hna. split_and!; [done..|]. by rewrite Hf.
Qed.

#[global] Instance write_admitted_dec (state : ApiState) (agent_id : string) (fs : FS) :
  Decision (write_admitted state agent_id fs).
Proof. unfold write_admitted. apply _. Defined.

Lemma post_response_raise_status (e : exn) : status (post_response (Raise e)) ≠ 201.
Proof. by destruct e. Qed.

Lemma post_response_entry_error (e : json) :
  post_response (Raise (entry_error e)) =
  _json_response 400 (error_payload "bad_request" (entry_error e)).
Proof. by destruct e. Qed.

Lemma do_POST_list (state : ApiState) (req : Request) (fs : FS)
    (agent_id : string) (entries : list json) :
  authenticate state req = Ok agent_id →
  entries_route (PyStr.rstrip_char "/" (url_path req)) = Some agent_id →
  _read_json req = Ok (JList entries) →
  do_POST state req fs =
  (post_response (append_entries state agent_id entries fs).1,
   (append_entries state agent_id entries fs).2).
Proof.
  intros Ha Hr Hj. unfold do_POST, do_POST_body. rewrite Ha, Hr, Hj.
  rewrite bool_decide_eq_true_2 by done. simpl.
  by destruct (append_entries _ _ _ _).
Qed.

Lemma do_POST_dict (state : ApiState) (req : Request) (fs : FS)
    (agent_id : string) (m : gmap string json) :
  authenticate state req = Ok agent_id →
  entries_route (PyStr.rstrip_char "/" (url_path req)) = Some agent_id →
  _read_json req = Ok (JDict m) →
  do_POST state req fs =
  (post_response (append_entries state agent_id [JDict m] fs).1,
   (append_entries state agent_id [JDict m] fs).2).
Proof.
  intros Ha Hr Hj. unfold do_POST, do_POST_body. rewrite Ha, Hr, Hj.
  rewrite bool_decide_eq_true_2 by done. simpl.
  by destruct (append_entries _ _ _ _).
Qed.

(** The one way to a 201: an admitted write of accepted entries. *)
Lemma append_entries_created_inv (state : ApiState) (agent_id : string)
    (entries : list json) (fs : FS) :
  status (post_response (append_entries state agent_id entries fs).1) = 201 →
  write_admitted state agent_id fs ∧
  Forall (λ e, entry_accepted e = true) entries ∧
  append_entries state agent_id entries fs =
  (Ok (_json_response 201
         (JDict {[ "ok" := JBool true;
                   "written" := JInt (Z.of_nat (length entries)) ]})),
   <[log_path state agent_id :=
       File (log_content state agent_id fs +:+ lines_of entries)]>
     (Fs.make_dirs (Path.parent (log_path state agent_id)) fs)).
Proof.
  intros Hst. destruct (decide (write_admitted state agent_id fs)) as [Hw|Hw].
  - rewrite (append_entries_admitted _ _ _ _ Hw) in Hst |- *.
    destruct (write_entries entries (log_content state agent_id fs))
      as [buf [u|e]] eqn:Hwr; simpl in Hst.
    + pose proof (write_entries_ok_inv _ _ _ _ Hwr) as Hall.
      rewrite (write_entries_all _ _ Hall) in Hwr. simplify_eq. done.
    + by apply post_response_raise_status in Hst.
  - destruct (append_entries_not_admitted _ _ entries _ Hw) as (e & fs' & Heq & _).
    rewrite Heq in Hst. by apply post_response_raise_status in Hst.
Qed.

Lemma do_POST_created_inv (state : ApiState) (req : Request) (fs : FS) :
  status (do_POST state req fs).1 = 201 →
  ∃ agent_id entries,
    authenticate state req = Ok agent_id ∧
    entries_route (PyStr.rstrip_char "/" (url_path req)) = Some agent_id ∧
    (_read_json req = Ok (JList entries) ∨
     ∃ m, _read_json req = Ok (JDict m) ∧ entries = [JDict m]) ∧
    write_admitted state agent_id fs ∧
    Forall (λ e, entry_accepted e = true) entries ∧
    do_POST state req fs =
    (_json_response 201
       (JDict {[ "ok" := JBool true;
                 "written" := JInt (Z.of_nat (length entries)) ]}),
     <[log_path state agent_id :=
         File (log_content state agent_id fs +:+ lines_of entries)]>
       (Fs.make_dirs (Path.parent (log_path state agent_id)) fs)).
Proof.
  destruct (authenticate state req) as [principal|e] eqn:Ha; last first.
  { rewrite (do_POST_unauthenticated _ _ _ _ Ha). done. }
  destruct (entries_route (PyStr.rstrip_char "/" (url_path req)))
    as [agent_id|] eqn:Hr; last first.
  { unfold do_POST, do_POST_body. rewrite Ha, Hr. done. }
  destruct (decide (principal = agent_id)) as [->|Hne]; last first.
  { by rewrite (do_POST_namespace_mismatch _ _ _ _ _ Ha Hr Hne). }
  destruct (_read_json req) as [[| | | | |entries|m]|e] eqn:Hj;
    try (unfold do_POST, do_POST_body; rewrite Ha, Hr, Hj;
         rewrite bool_decide_eq_true_2 by done; simpl; done).
  - rewrite (do_POST_list _ _ _ _ _ Ha Hr Hj). simpl. intros Hst.
    destruct (append_entries_created_inv _ _ _ _ Hst) as (Hw & Hall & Heq).
    exists agent_id, entries. split_and!; [done|done|by left|done|done|].
    by rewrite Heq.
  - rewrite (do_POST_dict _ _ _ _ _ Ha Hr Hj). simpl. intros Hst.
    destruct (append_entries_created_inv _ _ _ _ Hst) as (Hw & Hall & Heq).
    exists agent_id, [JDict m]. split_and!; [done|done|right; by eauto|done|done|].
    by rewrite Heq.
  - unfold do_POST, do_POST_body; rewrite Ha, Hr, Hj.
    rewrite bool_decide_eq_true_2 by done; simpl. intros Hst.
    by apply post_response_raise_status in Hst.
Qed.

(** C10: a body that is a single JSON object is accepted and handled as the
    one-element batch holding it.  The request answers and writes exactly as
    the request with the same headers whose body is the list of that object.
    It is accepted: when the request authenticates for the namespace of its
    path, the write is admitted and the object passes the entry check, the
    answer is 201 with written = 1 and the log has grown by the object's one
    serialised line.  Conversely a 201 always reports written = 1 and that
    one line. *)
Theorem single_object_is_singleton_batch
    (state : ApiState) (req req' : Request) (fs : FS) (m : gmap string json) :
  authorization req' = authorization req →
  url_path req' = url_path req →
  _read_json req = Ok (JDict m) →
  _read_json req' = Ok (JList [JDict m]) →
  do_POST state req' fs = do_POST state req fs ∧
  (∀ agent_id,
     authenticate state req = Ok agent_id →
     entries_route (PyStr.rstrip_char "/" (url_path req)) = Some agent_id →
     write_admitted state agent_id fs →
     entry_accepted (JDict m) = true →
     do_POST state req fs =
     (_json_response 201
        (JDict {[ "ok" := JBool true; "written" := JInt 1 ]}),
      <[log_path state agent_id :=
          File (log_content state agent_id fs
                +:+ json_dumps (JDict m) +:+ String newline "")]>
        (Fs.make_dirs (Path.parent (log_path state agent_id)) fs))) ∧
  (status (do_POST state req fs).1 = 201 →
   ∃ agent_id,
     authenticate state req = Ok agent_id ∧
     payload (do_POST state req fs).1 =
       JDict {[ "ok" := JBool true; "written" := JInt 1 ]} ∧
     log_content state agent_id (do_POST state req fs).2 =
       log_content state agent_id fs +:+ json_dumps (JDict m) +:+ String newline "").
Proof.
  intros Hauth Hurl Hj Hj'. split_and!.
  - unfold do_POST, do_POST_body, authenticate, _bearer_token.
    by rewrite Hauth, Hurl, Hj, Hj'.
  - intros agent_id Ha Hr Hw Hacc.
    rewrite (do_POST_dict _ _ _ _ _ Ha Hr Hj).
    rewrite (append_entries_admitted _ _ _ _ Hw).
    rewrite write_entries_all by (by constructor). done.
  - intros Hst.
    destruct (do_POST_created_inv _ _ _ Hst)
      as (agent_id & entries & Ha & Hr & Hbody & Hw & Hall & Heq).
    destruct Hbody as [Hl|(m' & Hd & ->)]; [congruence|].
    assert (m' = m) as -> by congruence.
    exists agent_id. rewrite Heq. split_and!; [done|done|].
    simpl. by rewrite log_content_insert.
Qed.

(** C2, as amended: a batch holding an entry that fails the check is never
    answered 201, but it is not rejected atomically.  When the write is
    admitted, the request is answered 400 with the error of the first failing
    entry and the log has grown by the serialised lines of the entries before
    that one, in order, and by nothing else; when the write is not admitted
    the log's content is unchanged.  The log is left as it was when the
    failing entry is the first of the batch. *)
Theorem rejected_batch_keeps_accepted_prefix
    (state : ApiState) (req : Request) (fs : FS) (agent_id : string)
    (good : list json) (bad : json) (rest : list json) :
  authenticate state req = Ok agent_id →
  entries_route (PyStr.rstrip_char "/" (url_path req)) = Some agent_id →
  _read_json req = Ok (JList (good ++ bad :: rest)) →
  Forall (λ e, entry_accepted e = true) good →
  entry_accepted bad = false →
  status (do_POST state req fs).1 ≠ 201 ∧
  (write_admitted state agent_id fs →
   (do_POST state req fs).1 =
     _json_response 400 (error_payload "bad_request" (entry_error bad)) ∧
   log_content state agent_id (do_POST state req fs).2 =
     log_content state agent_id fs +:+ lines_of good) ∧
  (¬ write_admitted state agent_id fs →
   log_content state agent_id (do_POST state req fs).2 =
     log_content state agent_id fs) ∧
  (good = [] →
   log_content state agent_id (do_POST state req fs).2 =
     log_content state agent_id fs).
Proof.
  intros Ha Hr Hj Hgood Hbad.
  rewrite (do_POST_list _ _ _ _ _ Ha Hr Hj). simpl.
  assert (write_admitted state agent_id fs →
          append_entries state agent_id (good ++ bad :: rest) fs =
          (Raise (entry_error bad),
           <[log_path state agent_id :=
               File (log_content state agent_id fs +:+ lines_of good)]>
             (Fs.make_dirs (Path.parent (log_path state agent_id)) fs))) as Hadm.
  { intros Hw. rewrite (append_entries_admitted _ _ _ _ Hw).
    by rewrite (write_entries_stop _ _ _ _ Hgood Hbad). }
  assert (¬ write_admitted state agent_id fs →
          log_content state agent_id
            (append_entries state agent_id (good ++ bad :: rest) fs).2 =
          log_content state agent_id fs) as Hnadm.
  { intros Hw.
    destruct (append_entries_not_admitted _ _ (good ++ bad :: rest) _ Hw)
      as (e & fs' & -> & Hlog & _). done. }
  split_and!.
  - destruct (decide (write_admitted state agent_id fs)) as [Hw|Hw].
    + rewrite (Hadm Hw). apply post_response_raise_status.
    + destruct (append_entries_not_admitted _ _ (good ++ bad :: rest) _ Hw)
        as (e & fs' & -> & _). apply post_response_raise_status.
  - intros Hw. rewrite (Hadm Hw). cbn [fst snd].
    by rewrite post_response_entry_error, log_content_insert.
  - done.
  - intros ->. destruct (decide (write_admitted state agent_id fs)) as [Hw|Hw].
    + rewrite (Hadm Hw). simpl.
      by rewrite log_content_insert, string_app_nil_r.
    + by apply Hnadm.
Qed.

(** What the check of the write loop accepts. *)
Lemma entry_accepted_iff (e : json) :
  entry_accepted e = true ↔
  ∃ m p, e = JDict m ∧ m !! "projection" = Some (JDict p).
Proof.
  split.
  - destruct e as [| | | | | |m]; try done. simpl. unfold dict_get.
    destruct (m !! "projection") as [[| | | | | |p]|] eqn:Hp; try done. eauto.
  - intros (m & p & -> & Hp). simpl. unfold dict_get. by rewrite Hp.
Qed.

(** The part of the entry check that the code performs: an entry that is not a mapping, or whose
    [projection] is missing or is not a mapping, stops the write loop with an
    error that is answered 400. *)
Lemma malformed_entry_rejected (e : json) (rest : list json) (buf : string) :
  (∀ m p, e = JDict m → m !! "projection" ≠ Some (JDict p)) →
  write_entries (e :: rest) buf = (buf, Raise (entry_error e)) ∧
  status (post_response (Raise (entry_error e))) = 400.
Proof.
  intros Hno. split; [|by destruct e].
  apply write_entries_reject. destruct (entry_accepted e) eqn:He; [|done].
  apply entry_accepted_iff in He as (m & p & -> & Hp). by destruct (Hno m p).
Qed.

(** C3, at the failing input: the write loop accepts and writes an entry
    whose projection is a mapping with any classification whatever, the
    unrecognised state [S9] and the empty mapping included; no state is
    compared with [S1] .. [S7]. *)
Theorem projection_state_not_checked (classification : gmap string json) (buf : string) :
  write_entries [JDict {[ "projection" := JDict classification ]}] buf =
  (buf +:+ json_dumps (JDict {[ "projection" := JDict classification ]})
       +:+ String newline "", Ok ()).
Proof.
  rewrite write_entries_all.
  - done.
  - constructor; [|done]. apply entry_accepted_iff.
    eexists _, _. split; [done|]. apply lookup_singleton_eq.
Qed.

(** ** The sandbox configuration *)

Lemma split_head_no_sep (sep : ascii) (s : string) :
  ∀ h t, PyStr.split sep s = h :: t → PyStr.split sep h = [h].
Proof.
  induction s as [|c s IH]; simpl; intros h t.
  - by intros [= <- <-].
  - case_bool_decide as Hc.
    + by intros [= <- <-].
    + destruct (PyStr.split sep s) as [|h' t'] eqn:Hs.
      * intros [= <- <-]. simpl. by rewrite bool_decide_eq_false_2.
      * intros [= <- <-]. simpl. rewrite bool_decide_eq_false_2 by done.
        by rewrite (IH h' t').
Qed.

Lemma split_pieces_no_sep (sep : ascii) (s x : string) :
  x ∈ PyStr.split sep s → PyStr.split sep x = [x].
Proof.
  revert x. induction s as [|c s IH]; simpl; intros x.
  - by intros ->%list_elem_of_singleton.
  - case_bool_decide as Hc.
    + intros [->|Hin]%elem_of_cons; [done|]. by apply IH.
    + destruct (PyStr.split sep s) as [|h t] eqn:Hs.
      * intros ->%list_elem_of_singleton. simpl.
        by rewrite bool_decide_eq_false_2.
      * intros [->|Hin]%elem_of_cons.
        -- simpl. rewrite bool_decide_eq_false_2 by done.
           by rewrite (split_head_no_sep _ _ _ _ Hs).
        -- apply IH. by apply list_elem_of_further.
Qed.

Lemma split_single_not_absolute (s : string) :
  PyStr.split "/" s = [s] → PyStr.startswith "/" s = false.
Proof.
  destruct s as [|c s]; [done|]. simpl.
  case_bool_decide as Hc; [|by rewrite bool_decide_eq_false_2].
  intros Habs. by simplify_eq.
Qed.

(** The agent identifier the route hands over is one non-empty component. *)
Lemma entries_route_component (p agent_id : string) :
  entries_route p = Some agent_id →
  PyStr.split "/" agent_id = [agent_id] ∧ agent_id ≠ "".
Proof.
  unfold entries_route, route_parts.
  destruct (filter _ _) as [|p0 [|p1 [|a [|p3 [|]]]]] eqn:Hf; try done.
  destruct (_ && _); [|done]. intros [= <-].
  assert (a ∈ filter (λ c, PyStr.truthy c = true) (PyStr.split "/" p)) as Hin.
  { rewrite Hf. set_solver. }
  apply list_elem_of_filter in Hin as [Ht Hin].
  split; [by eapply split_pieces_no_sep|]. by intros ->.
Qed.

Lemma join_component (p : path) (s : string) :
  PyStr.split "/" s = [s] →
  Path.join p s = if decide (s ≠ "" ∧ s ≠ ".") then p ++ [s] else p.
Proof.
  intros Hs. unfold Path.join, Path.parts.
  rewrite (split_single_not_absolute _ Hs), Hs. simpl.
  destruct (decide (s ≠ "" ∧ s ≠ ".")) as [Hd|Hd].
  - by rewrite filter_cons_True.
  - rewrite filter_cons_False by done. by rewrite app_nil_r.
Qed.

Lemma agent_fs_allowed_root (state : ApiState) (agent_id : string) :
  namespace_name agent_id →
  allowed_root (agent_fs state agent_id) =
  data_dir (config state) ++ ["agents"; agent_id].
Proof.
  intros (Hs & Hne & Hdot & _). unfold agent_fs. simpl.
  rewrite join_agents, (join_component _ _ Hs).
  rewrite decide_True by done. by rewrite <- app_assoc.
Qed.

(** C4, as amended: the sandbox the API makes for an agent is never disjoint
    from its deny roots, and no configuration is rejected.  For an agent
    identifier as the route yields it (one path component), the deny roots are
    the corpus directory and the directory of all namespaces, and the allowed
    root lies inside the latter: it is that directory's child named by the
    agent identifier, and the directory itself for the identifier ["."]. *)
Theorem allowed_root_inside_deny_root (state : ApiState) (agent_id : string) :
  PyStr.split "/" agent_id = [agent_id] →
  let agents_root := data_dir (config state) ++ ["agents"] in
  deny_roots (agent_fs state agent_id) =
    [Path.parent (core_path (config state)); agents_root] ∧
  agents_root `prefix_of` allowed_root (agent_fs state agent_id) ∧
  ¬ roots_disjoint (agent_fs state agent_id) ∧
  (agent_id ≠ "" → agent_id ≠ "." →
   allowed_root (agent_fs state agent_id) = agents_root ++ [agent_id]) ∧
  (agent_id = "." → allowed_root (agent_fs state agent_id) = agents_root).
Proof.
  intros Hs agents_root.
  assert (agents_root `prefix_of` allowed_root (agent_fs state agent_id)) as Hpre.
  { unfold agent_fs. simpl. rewrite join_agents, (join_component _ _ Hs).
    destruct (decide _); [by apply prefix_app_r|done]. }
  split_and!; [done|done| | |].
  - intros Hdis. apply (Hdis agents_root).
    + unfold agent_fs. simpl. rewrite join_agents. set_solver.
    + by right.
  - intros Hne Hdot. unfold agent_fs. simpl.
    rewrite join_agents, (join_component _ _ Hs). by rewrite decide_True.
  - intros ->. unfold agent_fs. simpl.
    rewrite join_agents, (join_component _ _ Hs).
    rewrite decide_False; [done|]. by intros [_ ?].
Qed.

(** ** Reading the corpus *)

(** The records [load] returns for the bytes of the corpus file. *)
Lemma load_records (core : CoreDataset) (fs : FS) (bytes : string) :
  Fs.read fs (dataset_path core) = Ok bytes →
  load core fs =
  Ok (map parse_record
        (filter (λ l, PyStr.strip l ≠ "") (PyStr.split newline bytes))).
Proof. intros Hr. unfold load. by rewrite Hr. Qed.

Lemma verify_immutable_decides (core : CoreDataset) (fs : FS) (bytes : string) :
  Fs.read fs (dataset_path core) = Ok bytes →
  verify_immutable core fs =
  if bool_decide (sha256_hex bytes = expected_sha256 core) then Ok ()
  else Raise (IntegrityViolation "core dataset hash mismatch").
Proof. intros Hr. unfold verify_immutable, compute_file_sha256. by rewrite Hr. Qed.

(** C5: on the read-corpus route the hash check stands before the load.  With
    the expected hash of the companion file and the bytes of the corpus file
    at hand, a mismatch makes the request fail with [IntegrityViolation],
    answered as an error that carries no record; a match makes it succeed
    with the records parsed from those bytes, so two requests over the same
    bytes, on whatever snapshot, return the same record sequence. *)
Theorem read_corpus_checks_hash
    (state : ApiState) (req : Request) (fs : FS)
    (principal expected bytes : string) :
  authenticate state req = Ok principal →
  PyStr.rstrip_char "/" (url_path req) = "/v1/core/records" →
  expected_core_sha256 state fs = Ok expected →
  Fs.read fs (core_path (config state)) = Ok bytes →
  (expected ≠ sha256_hex bytes →
   do_GET_body state req fs =
     Raise (IntegrityViolation "core dataset hash mismatch") ∧
   do_GET state req fs =
     _json_response 500
       (error_payload "server_error"
          (IntegrityViolation "core dataset hash mismatch"))) ∧
  (expected = sha256_hex bytes →
   do_GET state req fs =
     _json_response 200
       (JDict {[ "records" :=
                   JList (map parse_record
                            (filter (λ l, PyStr.strip l ≠ "")
                                    (PyStr.split newline bytes))) ]}) ∧
   ∀ (req' : Request) (fs' : FS) (principal' : string),
     authenticate state req' = Ok principal' →
     PyStr.rstrip_char "/" (url_path req') = "/v1/core/records" →
     expected_core_sha256 state fs' = Ok (sha256_hex bytes) →
     Fs.read fs' (core_path (config state)) = Ok bytes →
     do_GET state req' fs' = do_GET state req fs).
Proof.
  intros Ha Hp He Hr.
  assert (∀ (rq : Request) (f : FS) (pr ex : string),
            authenticate state rq = Ok pr →
            PyStr.rstrip_char "/" (url_path rq) = "/v1/core/records" →
            expected_core_sha256 state f = Ok ex →
            Fs.read f (core_path (config state)) = Ok bytes →
            do_GET_body state rq f =
            if bool_decide (sha256_hex bytes = ex)
            then Ok (_json_response 200
                       (JDict {[ "records" :=
                          JList (map parse_record
                                   (filter (λ l, PyStr.strip l ≠ "")
                                           (PyStr.split newline bytes))) ]}))
            else Raise (IntegrityViolation "core dataset hash mismatch")) as Hbody.
  { intros rq f pr ex Ha' Hp' He' Hr'.
    unfold do_GET_body. rewrite Ha'. simpl. rewrite Hp'. simpl.
    unfold core_dataset. rewrite He'. simpl.
    rewrite (verify_immutable_decides _ _ bytes) by done. simpl.
    case_bool_decide; [|done]. simpl.
    by rewrite (load_records _ _ bytes). }
  split.
  - intros Hne. unfold do_GET. rewrite (Hbody _ _ _ _ Ha Hp He Hr).
    by rewrite bool_decide_eq_false_2.
  - intros ->. unfold do_GET. rewrite (Hbody _ _ _ _ Ha Hp He Hr).
    rewrite bool_decide_eq_true_2 by done. split; [done|].
    intros req' fs' principal' Ha' Hp' He' Hr'.
    rewrite (Hbody _ _ _ _ Ha' Hp' He' Hr').
    by rewrite bool_decide_eq_true_2.
Qed.

(** ** Lines of a log *)

Lemma split_nonempty (sep : ascii) (s : string) : PyStr.split sep s ≠ [].
Proof.
  destruct s as [|c s]; simpl; [done|].
  case_bool_decide; [done|]. by destruct (PyStr.split sep s).
Qed.

Lemma split_app_sep (sep : ascii) (s1 s2 : string) :
  PyStr.split sep (s1 +:+ String sep s2) =
  PyStr.split sep s1 ++ PyStr.split sep s2.
Proof.
  induction s1 as [|c s1 IH].
  - change ("" +:+ String sep s2) with (String sep s2). simpl.
    by rewrite bool_decide_eq_true_2.
  - rewrite string_app_cons. simpl. rewrite IH.
    case_bool_decide; [done|].
    pose proof (split_nonempty sep s1) as Hne.
    by destruct (PyStr.split sep s1).
Qed.

Lemma removelast_app_nonempty {A} (l1 l2 : list A) :
  l2 ≠ [] → removelast (l1 ++ l2) = l1 ++ removelast l2.
Proof. intros Hne. by apply removelast_app. Qed.

Lemma complete_lines_empty : complete_lines "" = [].
Proof. reflexivity. Qed.

Lemma complete_lines_app (a b : string) :
  log_terminated a →
  complete_lines (a +:+ b) = complete_lines a ++ complete_lines b.
Proof.
  intros [->|[t ->]]; [done|]. unfold complete_lines.
  rewrite string_app_assoc.
  change (String newline "" +:+ b) with (String newline b).
  rewrite !split_app_sep.
  rewrite removelast_app_nonempty by apply split_nonempty.
  change (PyStr.split newline "") with [""].
  by rewrite removelast_last.
Qed.

Lemma complete_lines_lines_of (entries : list json) :
  Forall (λ e, single_line (json_dumps e)) entries →
  complete_lines (lines_of entries) = map json_dumps entries.
Proof.
  unfold complete_lines. induction 1 as [|e es He _ IH]; [done|].
  simpl lines_of.
  change (String newline "" +:+ lines_of es) with (String newline (lines_of es)).
  rewrite split_app_sep, He. simpl app.
  pose proof (split_nonempty newline (lines_of es)) as Hne.
  simpl map. rewrite <- IH.
  by destruct (PyStr.split newline (lines_of es)).
Qed.

Lemma lines_of_terminated (entries : list json) :
  log_terminated (lines_of entries).
Proof.
  induction entries as [|e es IH]; [by left|]. right. simpl.
  destruct IH as [->|[t ->]].
  - by exists (json_dumps e).
  - exists (json_dumps e +:+ String newline "" +:+ t).
    by rewrite !string_app_assoc.
Qed.

Lemma log_terminated_app (a b : string) :
  log_terminated a → log_terminated b → log_terminated (a +:+ b).
Proof.
  intros Ha [->|[t ->]].
  - by rewrite string_app_nil_r.
  - right. exists (a +:+ t). by rewrite string_app_assoc.
Qed.

Lemma log_entries_app (a b : string) :
  log_terminated a → log_entries (a +:+ b) = log_entries a ++ log_entries b.
Proof.
  intros Ha. unfold log_entries. by rewrite complete_lines_app, omap_app.
Qed.

Lemma log_entries_lines_of (entries : list json) :
  Forall serialisable entries → log_entries (lines_of entries) = entries.
Proof.
  intros Hs. unfold log_entries. rewrite complete_lines_lines_of.
  - induction Hs as [|e es [_ He] _ IH]; [done|].
    simpl. rewrite He. simpl. f_equal. apply IH.
  - eapply Forall_impl; [done|]. by intros e [? _].
Qed.

(** ** Canonical paths *)

Lemma elem_of_removelast {A} (x : A) (l : list A) : x ∈ removelast l → x ∈ l.
Proof.
  induction l as [|a [|b l] IH]; simpl; [done|by intros ?%elem_of_nil|].
  intros [->|Hin]%elem_of_cons; [apply list_elem_of_here|].
  by apply list_elem_of_further, IH.
Qed.

Lemma resolve_fold_canonical (p acc : path) :
  ".." ∉ acc → ".." ∉ fold_left Path.resolve_step p acc.
Proof.
  revert acc. induction p as [|c p IH]; intros acc Hacc; simpl; [done|].
  apply IH. unfold Path.resolve_step. destruct (decide (c = "..")) as [->|Hc].
  - intros Hin. by apply Hacc, elem_of_removelast.
  - intros [Hin|Heq%list_elem_of_singleton]%elem_of_app; [done|].
    by apply Hc.
Qed.

Lemma resolve_is_canonical (p : path) : ".." ∉ Path.resolve p.
Proof. apply resolve_fold_canonical. by intros ?%elem_of_nil. Qed.

Lemma resolve_fold_id (p acc : path) :
  ".." ∉ p → fold_left Path.resolve_step p acc = acc ++ p.
Proof.
  revert acc. induction p as [|c p IH]; intros acc Hp; simpl.
  - by rewrite app_nil_r.
  - rewrite IH.
    + unfold Path.resolve_step. rewrite decide_False.
      * by rewrite <- app_assoc.
      * intros ->. apply Hp, list_elem_of_here.
    + intros Hin. by apply Hp, list_elem_of_further.
Qed.

Lemma resolve_canonical (p : path) : ".." ∉ p → Path.resolve p = p.
Proof. intros Hp. unfold Path.resolve. by rewrite resolve_fold_id. Qed.

Lemma agents_dir_snoc (state : ApiState) :
  agents_dir state = Path.resolve (data_dir (config state)) ++ ["agents"].
Proof. unfold agents_dir. rewrite join_agents. by apply resolve_snoc_name. Qed.

Lemma agents_dir_nonempty (state : ApiState) : agents_dir state ≠ [].
Proof. rewrite agents_dir_snoc. by destruct (Path.resolve _). Qed.

Lemma agents_dir_canonical (state : ApiState) : ".." ∉ agents_dir state.
Proof. apply resolve_is_canonical. Qed.

Lemma resolve_allowed_root (state : ApiState) (agent_id : string) :
  namespace_name agent_id →
  Path.resolve (allowed_root (agent_fs state agent_id)) =
  agents_dir state ++ [agent_id].
Proof.
  intros Hn. rewrite (agent_fs_allowed_root _ _ Hn).
  change ["agents"; agent_id] with (["agents"] ++ [agent_id]).
  rewrite app_assoc, resolve_snoc_name by apply Hn.
  by rewrite <- join_agents.
Qed.

Lemma log_path_namespace (state : ApiState) (agent_id : string) :
  namespace_name agent_id →
  log_path state agent_id = agents_dir state ++ [agent_id; "entries.jsonl"].
Proof.
  intros Hn. rewrite log_path_snoc, (resolve_allowed_root _ _ Hn).
  by rewrite <- app_assoc.
Qed.

Lemma log_path_parent_namespace (state : ApiState) (agent_id : string) :
  namespace_name agent_id →
  Path.parent (log_path state agent_id) = agents_dir state ++ [agent_id].
Proof. intros Hn. by rewrite log_path_parent, resolve_allowed_root. Qed.

Lemma namespace_of_log_path (state : ApiState) (agent_id : string) :
  namespace_name agent_id → namespace_of (log_path state agent_id) = agent_id.
Proof.
  intros Hn. unfold namespace_of.
  by rewrite (log_path_parent_namespace _ _ Hn), last_snoc.
Qed.

(** ** Discovery of the logs *)

Lemma elem_of_keys (f : FS) (k : path) :
  k ∈ (map_to_list f).*1 ↔ is_Some (f !! k).
Proof.
  rewrite list_elem_of_fmap. split.
  - intros ([k' v] & -> & Hin). apply elem_of_map_to_list in Hin. by exists v.
  - intros [v Hv]. exists (k, v). split; [done|]. by apply elem_of_map_to_list.
Qed.

Lemma lookup_node_canonical (f : FS) (p : path) :
  ".." ∉ p → p ≠ [] → Fs.lookup_node f (Path.resolve p) = f !! p.
Proof. intros Hp Hne. rewrite (resolve_canonical _ Hp). by destruct p. Qed.

Lemma lookup_node_agents_dir (state : ApiState) (f : FS) :
  Fs.lookup_node f (Path.resolve (Path.join (data_dir (config state)) "agents"))
  = f !! agents_dir state.
Proof.
  fold (agents_dir state). pose proof (agents_dir_nonempty state).
  by destruct (agents_dir state).
Qed.

#[global] Instance snoc_inj {A} (x : A) : Inj (=) (=) (λ l, l ++ [x]).
Proof. intros l1 l2 Heq. by apply app_inj_tail in Heq as [? _]. Qed.

(** The paths the discovery loop finds in a snapshot whose names are
    canonical and whose namespaces directory exists. *)
Lemma entry_paths_listed (state : ApiState) (f : FS) :
  (∀ k, is_Some (f !! k) → ".." ∉ k) →
  f !! agents_dir state = Some Dir →
  ∃ ps, entry_paths state f = Ok ps ∧ NoDup ps ∧
        ∀ p, p ∈ ps ↔
             ∃ d c, p = d ++ ["entries.jsonl"] ∧
                    Fs.is_child_of (agents_dir state) d ∧
                    is_Some (f !! d) ∧ f !! p = Some (File c).
Proof.
  intros Hcan Hdir. unfold entry_paths, Fs.exists_, Fs.iterdir.
  rewrite lookup_node_agents_dir, Hdir.
  rewrite bool_decide_eq_true_2 by done. simpl.
  fold (agents_dir state). eexists. split; [done|]. split.
  - apply NoDup_filter.
    apply (NoDup_fmap_2 (λ d, d ++ ["entries.jsonl"])).
    apply NoDup_filter, NoDup_fst_map_to_list.
  - intros p. rewrite list_elem_of_filter.
    change (map (λ agent_dir, Path.join agent_dir "entries.jsonl"))
      with (fmap (M:=list) (λ d : path, d ++ ["entries.jsonl"])).
    rewrite list_elem_of_fmap. split.
    + intros [Hfile (d & -> & [Hchild Hkey%elem_of_keys]%list_elem_of_filter)].
      assert (".." ∉ d ++ ["entries.jsonl"]) as Hp.
      { intros [Hin| ?%list_elem_of_singleton]%elem_of_app; [|done].
        by apply (Hcan d). }
      unfold Fs.exists_, Fs.is_file in Hfile.
      rewrite (lookup_node_canonical _ _ Hp) in Hfile by by destruct d.
      destruct (f !! (d ++ ["entries.jsonl"])) as [[c|]|] eqn:Hf.
      * by exists d, c.
      * by rewrite andb_false_r in Hfile.
      * by rewrite andb_false_r in Hfile.
    + intros (d & c & -> & Hchild & Hkey & Hf).
      assert (".." ∉ d ++ ["entries.jsonl"]) as Hp.
      { intros [Hin| ?%list_elem_of_singleton]%elem_of_app; [|done].
        by apply (Hcan d). }
      split.
      * unfold Fs.exists_, Fs.is_file.
        rewrite (lookup_node_canonical _ _ Hp) by by destruct d.
        rewrite Hf. by rewrite bool_decide_eq_true_2.
      * exists d. split; [done|]. apply list_elem_of_filter.
        split; [done|]. by apply elem_of_keys.
Qed.

Lemma entry_paths_absent (state : ApiState) (f : FS) :
  f !! agents_dir state = None → entry_paths state f = Ok [].
Proof.
  intros Hnone. unfold entry_paths, Fs.exists_.
  rewrite lookup_node_agents_dir, Hnone.
  by rewrite bool_decide_eq_false_2 by by intros [? ?].
Qed.

Lemma tagged_entries_file (f : FS) (p : path) (c : string) :
  ".." ∉ p → p ≠ [] → f !! p = Some (File c) →
  tagged_entries f p = map (λ e, (namespace_of p, e)) (log_entries c).
Proof.
  intros Hp Hne Hf. unfold tagged_entries, Fs.read.
  by rewrite (lookup_node_canonical _ _ Hp Hne), Hf.
Qed.

(** ** The snapshot after an admitted write *)

Lemma not_blocked_ancestor (p d : path) (fs : FS) (c : string) :
  Fs.blocked_by_file p fs = false →
  d ∈ Path.ancestors_and_self p → fs !! d ≠ Some (File c).
Proof.
  unfold Fs.blocked_by_file. intros Hb Hin Hf.
  assert (existsb (λ d, match fs !! d with Some (File _) => true | _ => false end)
            (Path.ancestors_and_self p) = true) as Ht; [|congruence].
  apply existsb_exists. exists d. split; [by apply list_elem_of_In|].
  by rewrite Hf.
Qed.

Lemma wf_canonical (fs : FS) (k : path) :
  Fs.wf fs → is_Some (fs !! k) → ".." ∉ k.
Proof. intros Hwf [n Hn]. by destruct (Hwf k n Hn). Qed.

Lemma wf_parent (fs : FS) (k : path) :
  Fs.wf fs → is_Some (fs !! k) → Path.parent k ≠ [] →
  fs !! Path.parent k = Some Dir.
Proof. intros Hwf [n Hn] Hne. by destruct (Hwf k n Hn) as [_ [?|?]]. Qed.

Lemma child_of_snoc (r d : path) :
  Fs.is_child_of r d → ∃ c, d = r ++ [c].
Proof.
  intros [Hne <-]. destruct (exists_last Hne) as (l & c & ->).
  exists c. unfold Path.parent. by rewrite removelast_last.
Qed.

Lemma snoc_is_child (r : path) (c : string) : Fs.is_child_of r (r ++ [c]).
Proof. split; [by destruct r|]. apply parent_snoc. Qed.

Section AdmittedWrite.
Variables (state : ApiState) (agent_id : string) (fs : FS) (new : string).
Hypothesis Hname : namespace_name agent_id.
Hypothesis Hadm : write_admitted state agent_id fs.

Let L := log_path state agent_id.
Let R := agents_dir state.
Let fs' : FS := <[L := File new]> (Fs.make_dirs (Path.parent L) fs).

Lemma L_eq : L = R ++ [agent_id; "entries.jsonl"].
Proof. by apply log_path_namespace. Qed.

Lemma parent_L : Path.parent L = R ++ [agent_id].
Proof. by apply log_path_parent_namespace. Qed.

Lemma L_canonical : ".." ∉ L.
Proof.
  rewrite L_eq. intros [Hin|Hin]%elem_of_app.
  - by apply (agents_dir_canonical state).
  - destruct Hname as (_ & _ & _ & Hdd).
    apply elem_of_cons in Hin as [Heq|Hin]; [by apply Hdd|].
    by apply list_elem_of_singleton in Hin.
Qed.

Lemma after_lookup (k : path) :
  fs' !! k =
  if decide (k = L) then Some (File new)
  else if decide (k ∈ Path.ancestors_and_self (Path.parent L)) then Some Dir
  else fs !! k.
Proof.
  unfold fs'. destruct (decide (k = L)) as [->|Hne].
  - by rewrite lookup_insert_eq.
  - rewrite lookup_insert_ne by done. apply make_dirs_lookup.
Qed.

Lemma after_lookup_file (k : path) (c : string) :
  k ≠ L → fs' !! k = Some (File c) ↔ fs !! k = Some (File c).
Proof.
  intros Hne. rewrite after_lookup. rewrite decide_False by done.
  destruct (decide _) as [Hin|Hnin]; [|done].
  split; [done|]. intros Hf. destruct Hadm as (_ & Hb & _).
  by destruct (not_blocked_ancestor _ _ _ c Hb Hin).
Qed.

Lemma after_is_Some (k : path) : is_Some (fs !! k) → is_Some (fs' !! k).
Proof.
  intros Hk. rewrite after_lookup.
  destruct (decide _); [done|]. by destruct (decide _).
Qed.

Lemma after_agents_dir : fs' !! R = Some Dir.
Proof.
  rewrite after_lookup. rewrite decide_False.
  - rewrite decide_True; [done|]. apply elem_of_ancestors_and_self.
    split; [apply agents_dir_nonempty|]. rewrite parent_L. by apply prefix_app_r.
  - rewrite L_eq. intros Heq. apply (f_equal length) in Heq.
    rewrite length_app in Heq. simpl in Heq. lia.
Qed.

Lemma after_canonical (k : path) : is_Some (fs' !! k) → Fs.wf fs → ".." ∉ k.
Proof.
  rewrite after_lookup. intros Hk Hwf.
  destruct (decide (k = L)) as [->|_]; [apply L_canonical|].
  destruct (decide _) as [[_ Hpre]%elem_of_ancestors_and_self|_].
  - intros Hin. apply L_canonical. rewrite L_eq.
    rewrite parent_L in Hpre. destruct Hpre as [t Ht].
    change [agent_id; "entries.jsonl"] with ([agent_id] ++ ["entries.jsonl"]).
    rewrite app_assoc, Ht. set_solver.
  - by apply (wf_canonical fs).
Qed.

Lemma child_of_agents_dir_after (d : path) :
  Fs.is_child_of R d → d ≠ R ++ [agent_id] →
  is_Some (fs' !! d) → is_Some (fs !! d).
Proof.
  intros Hchild Hne. destruct (child_of_snoc _ _ Hchild) as [c ->].
  rewrite after_lookup. rewrite decide_False; last first.
  { rewrite L_eq. intros Heq. apply (f_equal length) in Heq.
    rewrite !length_app in Heq. simpl in Heq. lia. }
  destruct (decide _) as [[_ Hpre]%elem_of_ancestors_and_self|_]; [|done].
  exfalso. rewrite parent_L in Hpre. apply Hne.
  apply prefix_app_inv in Hpre. destruct Hpre as [t Ht].
  by simplify_eq/=.
Qed.

(** The logs found afterwards are the namespace's own log and the logs
    found before. *)
Lemma discovered_after (p : path) :
  Fs.wf fs → discovered state fs' p ↔ p = L ∨ discovered state fs p.
Proof.
  intros Hwf. split.
  - intros (d & c & -> & Hchild & Hd & Hf).
    destruct (decide (d = R ++ [agent_id])) as [->|Hne].
    { left. rewrite L_eq. by rewrite <- app_assoc. }
    right. exists d, c. split_and!; [done|done| |].
    + by apply child_of_agents_dir_after.
    + apply after_lookup_file; [|done]. rewrite L_eq.
      change [agent_id; "entries.jsonl"] with ([agent_id] ++ ["entries.jsonl"]).
      rewrite app_assoc. by intros [? _]%app_inj_tail.
  - intros [->|(d & c & -> & Hchild & Hd & Hf)].
    + exists (R ++ [agent_id]), new. split_and!.
      * rewrite L_eq. by rewrite <- app_assoc.
      * apply snoc_is_child.
      * rewrite after_lookup. rewrite decide_False.
        -- rewrite decide_True; [done|]. apply elem_of_ancestors_and_self.
           rewrite parent_L. split; [by destruct R|done].
        -- rewrite L_eq. intros Heq. apply (f_equal length) in Heq.
           rewrite !length_app in Heq. simpl in Heq. lia.
      * fold L. unfold fs'. by rewrite lookup_insert_eq.
    + destruct (decide (d ++ ["entries.jsonl"] = L)) as [Heq|Hne].
      * exists d, new. split_and!; [done|done|by apply after_is_Some|].
        rewrite Heq. unfold fs'. by rewrite lookup_insert_eq.
      * exists d, c. split_and!; [done|done|by apply after_is_Some|].
        by apply after_lookup_file.
Qed.

End AdmittedWrite.

Lemma entry_paths_before (state : ApiState) (fs : FS) :
  Fs.wf fs →
  (∀ c, fs !! agents_dir state ≠ Some (File c)) →
  ∃ ps, entry_paths state fs = Ok ps ∧ NoDup ps ∧
        ∀ p, p ∈ ps ↔ discovered state fs p.
Proof.
  intros Hwf Hnf. destruct (fs !! agents_dir state) as [[c|]|] eqn:Hr.
  - by destruct (Hnf c).
  - apply entry_paths_listed; [|done]. intros k Hk. by apply (wf_canonical fs).
  - exists []. split; [by apply entry_paths_absent|]. split; [constructor|].
    intros p. split; [by intros ?%elem_of_nil|].
    intros (d & c & -> & Hchild & Hd & _). exfalso.
    destruct Hchild as [Hne Hpar].
    assert (fs !! Path.parent d = Some Dir) as Hdir.
    { apply wf_parent; [done..|]. rewrite Hpar. apply agents_dir_nonempty. }
    rewrite Hpar in Hdir. congruence.
Qed.

Lemma aggregate_eq (fs : FS) (ps : list path) :
  aggregate fs ps = ps ≫= tagged_entries fs.
Proof. reflexivity. Qed.

Lemma discovered_canonical (state : ApiState) (fs : FS) (p : path) :
  Fs.wf fs → discovered state fs p → (".." ∉ p) ∧ p ≠ [].
Proof.
  intros Hwf (d & c & -> & _ & _ & Hf). split.
  - apply (wf_canonical fs); [done|]. by rewrite Hf.
  - by destruct d.
Qed.

(** The aggregated view after an admitted write of serialisable entries to
    a terminated log: the view before, and the entries written, each tagged
    with the namespace. *)
Lemma aggregated_view_after_write (state : ApiState) (agent_id : string)
    (fs : FS) (entries : list json) :
  namespace_name agent_id →
  write_admitted state agent_id fs →
  Fs.wf fs →
  log_terminated (log_content state agent_id fs) →
  Forall serialisable entries →
  ∃ before after,
    aggregated_view state fs = Ok before ∧
    aggregated_view state
      (<[log_path state agent_id :=
           File (log_content state agent_id fs +:+ lines_of entries)]>
         (Fs.make_dirs (Path.parent (log_path state agent_id)) fs)) = Ok after ∧
    after ≡ₚ before ++ map (λ e, (agent_id, e)) entries.
Proof.
  intros Hname Hadm Hwf Hterm Hser.
  set (L := log_path state agent_id).
  set (old := log_content state agent_id fs).
  set (fs' := <[L := File (old +:+ lines_of entries)]>
                (Fs.make_dirs (Path.parent L) fs)).
  assert (namespace_of L = agent_id) as HnsL
    by by apply namespace_of_log_path.
  assert (∀ c, fs !! agents_dir state ≠ Some (File c)) as Hnf.
  { intros c. destruct Hadm as (_ & Hb & _).
    apply (not_blocked_ancestor _ _ _ c Hb).
    apply elem_of_ancestors_and_self. split; [apply agents_dir_nonempty|].
    rewrite (log_path_parent_namespace _ _ Hname). by apply prefix_app_r. }
  destruct (entry_paths_before state fs Hwf Hnf) as (ps & Hps & Hnd & Hmem).
  destruct (entry_paths_listed state fs') as (ps' & Hps' & Hnd' & Hmem').
  { intros k Hk. by eapply (after_canonical state agent_id fs). }
  { by apply (after_agents_dir state agent_id fs). }
  assert (∀ p, p ∈ ps' ↔ p = L ∨ p ∈ ps) as Hmem''.
  { intros p. rewrite Hmem, Hmem'.
    by apply (discovered_after state agent_id fs). }
  exists (aggregate fs ps), (aggregate fs' ps').
  unfold aggregated_view. rewrite Hps, Hps'. split_and!; [done|done|].
  set (rest := filter (λ p, p ≠ L) ps).
  assert (ps' ≡ₚ L :: rest) as Hperm'.
  { apply NoDup_Permutation; [done| |].
    - apply NoDup_cons. split; [|by apply NoDup_filter].
      by intros [? _]%list_elem_of_filter.
    - intros p. rewrite Hmem'', elem_of_cons. unfold rest.
      rewrite list_elem_of_filter. split.
      + intros [->|Hp]; [by left|].
        destruct (decide (p = L)); [by left|by right].
      + intros [->|[_ Hp]]; [by left|by right]. }
  assert (rest ≫= tagged_entries fs' = rest ≫= tagged_entries fs) as Hrest.
  { apply Forall_bind_ext, Forall_forall.
    intros p [Hne Hin%Hmem]%list_elem_of_filter.
    destruct (discovered_canonical _ _ _ Hwf Hin) as [Hcan Hnil].
    destruct Hin as (d & c & -> & _ & _ & Hf).
    rewrite (tagged_entries_file fs _ c) by done.
    rewrite (tagged_entries_file fs' _ c); [done..|].
    by apply (after_lookup_file state agent_id fs). }
  assert (tagged_entries fs' L =
          map (λ e, (agent_id, e)) (log_entries old) ++
          map (λ e, (agent_id, e)) entries) as HL.
  { rewrite (tagged_entries_file fs' L (old +:+ lines_of entries)).
    - rewrite HnsL, log_entries_app by done.
      by rewrite (log_entries_lines_of _ Hser), map_app.
    - by apply (L_canonical state agent_id).
    - apply log_path_nonempty.
    - unfold fs'. by rewrite lookup_insert_eq. }
  rewrite !aggregate_eq, Hperm', bind_cons, Hrest, HL.
  destruct (decide (L ∈ ps)) as [Hin|Hnin].
  - assert (ps ≡ₚ L :: rest) as Hperm.
    { apply NoDup_Permutation; [done| |].
      - apply NoDup_cons. split; [|by apply NoDup_filter].
        by intros [? _]%list_elem_of_filter.
      - intros p. rewrite elem_of_cons. unfold rest.
        rewrite list_elem_of_filter. split.
        + intros Hp. destruct (decide (p = L)); [by left|by right].
        + by intros [->|[_ Hp]]. }
    rewrite Hperm, bind_cons.
    apply Hmem in Hin as Hdisc.
    destruct (discovered_canonical _ _ _ Hwf Hdisc) as [Hcan Hnil].
    destruct Hdisc as (d & c & HLd & _ & _ & Hf).
    rewrite (tagged_entries_file fs L c) by done.
    rewrite HnsL.
    assert (old = c) as ->.
    { unfold old, log_content. fold L. by rewrite Hf. }
    rewrite <- !app_assoc. apply Permutation_app_head, Permutation_app_comm.
  - assert (ps ≡ₚ rest) as Hperm.
    { apply NoDup_Permutation; [done|by apply NoDup_filter|].
      intros p. unfold rest. rewrite list_elem_of_filter.
      split; [|by intros [_ Hp]]. intros Hp. split; [|done]. by intros ->. }
    rewrite Hperm.
    assert (old = "") as ->.
    { unfold old, log_content. fold L.
      destruct (fs !! L) as [[c|]|] eqn:Hf; [|done..].
      exfalso. apply Hnin, Hmem.
      exists (Path.parent L), c. split_and!.
      - unfold L. rewrite log_path_parent, log_path_snoc. done.
      - unfold L. rewrite (log_path_parent_namespace _ _ Hname).
        apply snoc_is_child.
      - assert (fs !! Path.parent L = Some Dir) as ->; [|done].
        apply wf_parent; [done|by rewrite Hf|].
        unfold L. rewrite (log_path_parent_namespace _ _ Hname).
        by destruct (agents_dir state).
      - done. }
    simpl. apply Permutation_app_comm.
Qed.

(** The answer of [/v1/aggregate] carries the aggregated view and its
    length. *)
Lemma do_GET_aggregate (state : ApiState) (req : Request) (fs : FS)
    (principal : string) (out : list (string * json)) :
  authenticate state req = Ok principal →
  PyStr.rstrip_char "/" (url_path req) = "/v1/aggregate" →
  aggregated_view state fs = Ok out →
  do_GET state req fs =
  _json_response 200
    (JDict {[ "entries" := JList (map (λ x, JList [JStr x.1; x.2]) out);
              "count" := JInt (Z.of_nat (length out)) ]}).
Proof.
  intros Ha Hp Hv. unfold do_GET, do_GET_body. rewrite Ha. simpl.
  rewrite Hp. simpl. unfold aggregated_view in Hv.
  destruct (entry_paths state fs) as [ps|e]; [|done].
  simpl in Hv |- *. by simplify_eq.
Qed.

(** C7, as amended: for a namespace whose identifier names a directory, that
    is, any identifier but ["."] and [".."], a batch of N entries that is
    answered 201 is reported as written = N, extends the namespace's log by
    its N serialised lines in submission order, is read back from that log in
    that order after the entries the log held before, and adds to the
    aggregated view exactly its N entries, each once and tagged with the
    namespace.  The snapshot is well formed, the log's last line is
    terminated, and the entries survive [json.dumps] and [json.loads]. *)
Theorem submitted_batch_round_trip
    (state : ApiState) (req : Request) (fs : FS)
    (agent_id : string) (entries : list json) :
  authenticate state req = Ok agent_id →
  submitted_entries req = Some entries →
  status (do_POST state req fs).1 = 201 →
  agent_id ≠ "." → agent_id ≠ ".." →
  Fs.wf fs →
  log_terminated (log_content state agent_id fs) →
  Forall serialisable entries →
  payload (do_POST state req fs).1 =
    JDict {[ "ok" := JBool true;
             "written" := JInt (Z.of_nat (length entries)) ]} ∧
  log_content state agent_id (do_POST state req fs).2 =
    log_content state agent_id fs +:+ lines_of entries ∧
  log_entries (log_content state agent_id (do_POST state req fs).2) =
    log_entries (log_content state agent_id fs) ++ entries ∧
  ∃ before after,
    aggregated_view state fs = Ok before ∧
    aggregated_view state (do_POST state req fs).2 = Ok after ∧
    after ≡ₚ before ++ map (λ e, (agent_id, e)) entries ∧
    length after = (length before + length entries)%nat.
Proof.
  intros Ha Hsub Hst Hdot Hdotdot Hwf Hterm Hser.
  destruct (do_POST_created_inv _ _ _ Hst)
    as (a & es & Ha' & Hr & Hbody & Hw & Hall & Heq).
  assert (a = agent_id) as -> by congruence.
  assert (es = entries) as ->.
  { unfold submitted_entries in Hsub.
    destruct Hbody as [Hl|(m & Hd & ->)].
    - rewrite Hl in Hsub. by simplify_eq.
    - rewrite Hd in Hsub. by simplify_eq. }
  assert (namespace_name agent_id) as Hname.
  { destruct (entries_route_component _ _ Hr) as [Hs Hne]. by split_and!. }
  rewrite Heq. cbn [fst snd payload _json_response].
  rewrite log_content_insert. split_and!; [done|done| |].
  - rewrite log_entries_app by done. by rewrite log_entries_lines_of.
  - destruct (aggregated_view_after_write state agent_id fs entries)
      as (before & after & Hb & Haf & Hperm); [done..|].
    exists before, after. split_and!; [done..|].
    by rewrite Hperm, length_app, length_map.
Qed.

(** ** Invariants of the snapshot *)

Lemma ancestor_parent (p k : path) :
  k ∈ Path.ancestors_and_self p →
  Path.parent k = [] ∨ Path.parent k ∈ Path.ancestors_and_self p.
Proof.
  intros [Hne Hpre]%elem_of_ancestors_and_self.
  destruct (exists_last Hne) as (l & c & ->). rewrite parent_snoc.
  destruct l as [|a l]; [by left|]. right.
  apply elem_of_ancestors_and_self. split; [done|].
  etrans; [|done]. by apply prefix_app_r.
Qed.

Lemma ancestor_canonical (p k : path) :
  ".." ∉ p → k ∈ Path.ancestors_and_self p → ".." ∉ k.
Proof.
  intros Hp [_ [t ->]]%elem_of_ancestors_and_self Hin.
  apply Hp, elem_of_app. by left.
Qed.

Lemma make_dirs_wf (p : path) (fs : FS) :
  ".." ∉ p → Fs.wf fs → Fs.wf (Fs.make_dirs p fs).
Proof.
  intros Hp Hwf. apply map_Forall_lookup. intros k n.
  rewrite make_dirs_lookup. destruct (decide _) as [Hin|Hnin].
  - intros _. split; [by eapply ancestor_canonical|].
    destruct (ancestor_parent _ _ Hin) as [?|Hpar]; [by left|right].
    rewrite make_dirs_lookup. by rewrite decide_True.
  - intros Hk. destruct (Hwf k n Hk) as [Hcan [?|Hpar]].
    + split; [done|by left].
    + split; [done|right]. rewrite make_dirs_lookup.
      by destruct (decide _).
Qed.

Lemma insert_file_wf (l : path) (c : string) (fs : FS) :
  ".." ∉ l → l ≠ [] →
  Path.parent l = [] ∨ fs !! Path.parent l = Some Dir →
  fs !! l ≠ Some Dir →
  Fs.wf fs → Fs.wf (<[l := File c]> fs).
Proof.
  intros Hcan Hne Hparent Hnd Hwf.
  assert (Path.parent l ≠ l) as Hpl.
  { destruct (exists_last Hne) as (l' & x & ->). rewrite parent_snoc.
    intros Heq. apply (f_equal length) in Heq.
    rewrite length_app in Heq. simpl in Heq. lia. }
  apply map_Forall_lookup. intros k n.
  destruct (decide (k = l)) as [->|Hkl].
  - intros _. split; [done|]. destruct Hparent as [?|Hpar]; [by left|right].
    by rewrite lookup_insert_ne.
  - rewrite lookup_insert_ne by done. intros Hk.
    destruct (Hwf k n Hk) as [Hck [?|Hpar]]; [by split; [|left]|].
    split; [done|right]. rewrite lookup_insert_ne; [done|].
    intros Heq. apply Hnd. by rewrite Heq, Hpar.
Qed.

Lemma log_path_canonical (state : ApiState) (agent_id : string) :
  ".." ∉ log_path state agent_id.
Proof. apply resolve_is_canonical. Qed.

Lemma log_parent_canonical (state : ApiState) (agent_id : string) :
  ".." ∉ Path.parent (log_path state agent_id).
Proof. rewrite log_path_parent. apply resolve_is_canonical. Qed.

Lemma make_dirs_log_parent (state : ApiState) (agent_id : string) (fs : FS) :
  Path.parent (log_path state agent_id) = [] ∨
  Fs.make_dirs (Path.parent (log_path state agent_id)) fs
    !! Path.parent (log_path state agent_id) = Some Dir.
Proof.
  destruct (Path.parent (log_path state agent_id)) as [|c p] eqn:Hp; [by left|].
  right. rewrite make_dirs_lookup. rewrite decide_True; [done|].
  by apply elem_of_ancestors_and_self.
Qed.

Lemma append_entries_wf (state : ApiState) (agent_id : string)
    (entries : list json) (fs : FS) :
  Fs.wf fs → Fs.wf (append_entries state agent_id entries fs).2.
Proof.
  intros Hwf. unfold append_entries.
  destruct (_ensure_write_allowed _ _ _); [done|].
  unfold Fs.mkdir_parents. destruct (Fs.blocked_by_file _ _); [done|].
  pose proof (make_dirs_wf _ _ (log_parent_canonical state agent_id) Hwf) as Hwf1.
  unfold Fs.open_append. rewrite lookup_node_log.
  destruct (_ !! log_path state agent_id) as [[old|]|] eqn:Hl; [|done|].
  - destruct (write_entries entries old) as [buf [u|e]]; simpl;
      (apply insert_file_wf;
       [apply log_path_canonical|apply log_path_nonempty
       |apply make_dirs_log_parent|by rewrite Hl|done]).
  - destruct (write_entries entries "") as [buf [u|e]]; simpl;
      (apply insert_file_wf;
       [apply log_path_canonical|apply log_path_nonempty
       |apply make_dirs_log_parent|by rewrite Hl|done]).
Qed.

(** X18: a request leaves a well-formed snapshot well formed, whatever its
    outcome: no name [".."] appears, and every entry still lies in a
    directory of the snapshot. *)
Lemma do_POST_wf (state : ApiState) (req : Request) (fs : FS) :
  Fs.wf fs → Fs.wf (do_POST state req fs).2.
Proof.
  intros Hwf. unfold do_POST, do_POST_body.
  destruct (authenticate state req) as [principal|e]; [|done].
  destruct (entries_route _) as [agent_id|]; [|done].
  destruct (negb _); [done|].
  destruct (_read_json req) as [[| | | | |entries|m]|e]; try done.
  - pose proof (append_entries_wf state agent_id entries fs Hwf).
    by destruct (append_entries _ _ _ _).
  - pose proof (append_entries_wf state agent_id [JDict m] fs Hwf).
    by destruct (append_entries _ _ _ _).
Qed.

Lemma write_entries_appends (entries : list json) (buf : string) :
  ∃ written, (write_entries entries buf).1 = buf +:+ lines_of written.
Proof.
  revert buf. induction entries as [|e es IH]; intros buf.
  - exists []. simpl. by rewrite string_app_nil_r.
  - destruct (entry_accepted e) eqn:He.
    + rewrite write_entries_step by done.
      destruct (IH (buf +:+ json_dumps e +:+ String newline "")) as [ws ->].
      exists (e :: ws). simpl. by rewrite !string_app_assoc.
    + rewrite write_entries_reject by done. exists []. simpl.
      by rewrite string_app_nil_r.
Qed.

Lemma append_entries_snapshot (state : ApiState) (agent_id : string)
    (entries : list json) (fs : FS) :
  let fs' := (append_entries state agent_id entries fs).2 in
  fs' = fs ∨
  fs' = Fs.make_dirs (Path.parent (log_path state agent_id)) fs ∨
  ∃ written,
    fs' = <[log_path state agent_id :=
              File (log_content state agent_id fs +:+ lines_of written)]>
            (Fs.make_dirs (Path.parent (log_path state agent_id)) fs).
Proof.
  simpl. destruct (decide (write_admitted state agent_id fs)) as [Hw|Hw].
  - right. right. rewrite (append_entries_admitted _ _ _ _ Hw). cbn [snd].
    destruct (write_entries_appends entries (log_content state agent_id fs))
      as [ws ->]. by exists ws.
  - unfold append_entries. destruct (_ensure_write_allowed _ _ _); [by left|].
    unfold Fs.mkdir_parents. destruct (Fs.blocked_by_file _ _); [by left|].
    unfold Fs.open_append. rewrite lookup_node_log, make_dirs_log.
    unfold log_content.
    destruct (fs !! log_path state agent_id) as [[old|]|] eqn:Hl.
    + right. right. destruct (write_entries_appends entries old) as [ws Hws].
      exists ws. rewrite <- Hws. by destruct (write_entries entries old) as [? [?|?]].
    + right. by left.
    + right. right. destruct (write_entries_appends entries "") as [ws Hws].
      exists ws. rewrite <- Hws. by destruct (write_entries entries "") as [? [?|?]].
Qed.

(** X19: a request leaves every log whose last line is terminated in that
    state, whichever namespace it writes to and also when it is rejected in
    the middle of a batch: only whole lines are ever appended. *)
Lemma do_POST_log_terminated (state : ApiState) (req : Request) (fs : FS)
    (other : string) :
  log_terminated (log_content state other fs) →
  log_terminated (log_content state other (do_POST state req fs).2).
Proof.
  intros Hterm.
  assert (∀ agent_id entries,
            log_terminated
              (log_content state other
                 (append_entries state agent_id entries fs).2)) as Happ.
  { intros agent_id entries.
    destruct (append_entries_snapshot state agent_id entries fs)
      as [->|[->|[ws ->]]]; [done| |].
    - unfold log_content in Hterm |- *. rewrite make_dirs_lookup.
      destruct (decide _); [by left|done].
    - destruct (decide (log_path state other = log_path state agent_id))
        as [Heq|Hne].
      + unfold log_content in Hterm |- *. rewrite Heq in Hterm |- *.
        rewrite lookup_insert_eq.
        apply log_terminated_app; [done|apply lines_of_terminated].
      + unfold log_content in Hterm |- *. rewrite lookup_insert_ne by done.
        rewrite make_dirs_lookup. destruct (decide _); [by left|done]. }
  unfold do_POST, do_POST_body.
  destruct (authenticate state req) as [principal|e]; [|done].
  destruct (entries_route _) as [agent_id|]; [|done].
  destruct (negb _); [done|].
  destruct (_read_json req) as [[| | | | |entries|m]|e]; try done.
  - specialize (Happ agent_id entries). by destruct (append_entries _ _ _ _).
  - specialize (Happ agent_id [JDict m]). by destruct (append_entries _ _ _ _).
Qed.

(** ** Stripping *)

Lemma lstrip_by_head (p : ascii → bool) (s : string) :
  PyStr.lstrip_by p s = "" ∨
  ∃ c r, PyStr.lstrip_by p s = String c r ∧ p c = false.
Proof.
  induction s as [|c s IH]; simpl; [by left|].
  destruct (p c) eqn:Hc; [done|]. right. by exists c, s.
Qed.

Lemma rstrip_by_idemp (p : ascii → bool) (s : string) :
  PyStr.rstrip_by p (PyStr.rstrip_by p s) = PyStr.rstrip_by p s.
Proof.
  induction s as [|c s IH]; simpl; [done|].
  destruct (PyStr.rstrip_by p s) as [|d r] eqn:Hr.
  - destruct (p c) eqn:Hc; simpl; [done|]. by rewrite Hc.
  - simpl. simpl in IH. by rewrite IH.
Qed.

Lemma rstrip_by_keeps_head (p : ascii → bool) (c : ascii) (s : string) :
  p c = false → ∃ r, PyStr.rstrip_by p (String c s) = String c r.
Proof.
  intros Hc. simpl. destruct (PyStr.rstrip_by p s) as [|d r].
  - rewrite Hc. by exists "".
  - by exists (String d r).
Qed.

Lemma strip_idemp (s : string) : PyStr.strip (PyStr.strip s) = PyStr.strip s.
Proof.
  unfold PyStr.strip.
  destruct (lstrip_by_head PyStr.isspace s) as [->|(c & r & -> & Hc)]; [done|].
  destruct (rstrip_by_keeps_head PyStr.isspace c r Hc) as [r' Hr'].
  rewrite Hr'. simpl PyStr.lstrip_by. rewrite Hc.
  rewrite <- Hr'. apply rstrip_by_idemp.
Qed.

Lemma rstrip_by_snoc (p : ascii → bool) (s : string) (c : ascii) :
  p c = true →
  PyStr.rstrip_by p (s +:+ String c "") = PyStr.rstrip_by p s.
Proof.
  intros Hc. induction s as [|d s IH].
  - simpl. by rewrite Hc.
  - rewrite string_app_cons. simpl. by rewrite IH.
Qed.

Lemma find_principal_first (items : list (string * string)) (token p : string) :
  find_principal items token = Some p ↔
  ∃ l1 l2, items = l1 ++ (p, token) :: l2 ∧ ∀ q s, (q, s) ∈ l1 → s ≠ token.
Proof.
  induction items as [|[q t] items IH]; simpl.
  - split; [done|]. intros (l1 & l2 & Heq & _). by destruct l1.
  - case_bool_decide as Ht.
    + subst t. split.
      * intros [= ->]. exists [], items. split; [done|].
        intros ? ? Hin. by apply elem_of_nil in Hin.
      * intros (l1 & l2 & Heq & Hno). destruct l1 as [|[q' s'] l1].
        -- by simplify_eq/=.
        -- simplify_eq/=. exfalso.
           eapply Hno; [apply list_elem_of_here|done].
    + rewrite IH. split.
      * intros (l1 & l2 & -> & Hno). exists ((q, t) :: l1), l2. split; [done|].
        intros q' s' [[= -> ->]|Hin]%elem_of_cons; [done|]. by eapply Hno.
      * intros (l1 & l2 & Heq & Hno). destruct l1 as [|[q' s'] l1].
        -- by simplify_eq/=.
        -- simplify_eq/=. exists l1, l2. split; [done|].
           intros q'' s'' Hin. eapply Hno. by apply list_elem_of_further.
Qed.

(** X1: a request authenticates as the first principal, in the order of the
    credential table, whose secret is the presented bearer token: the table
    splits at that principal's binding, and no binding before it carries the
    token. *)
Theorem authenticate_first_binding (state : ApiState) (req : Request) (p : string) :
  authenticate state req = Ok p ↔
  ∃ token l1 l2,
    _bearer_token req = Some token ∧
    tokens (config state) = l1 ++ (p, token) :: l2 ∧
    ∀ q s, (q, s) ∈ l1 → s ≠ token.
Proof.
  destruct (_bearer_token req) as [token|] eqn:Hb.
  - rewrite (authenticate_find _ _ _ Hb). split.
    + destruct (find_principal _ _) as [p'|] eqn:Hf; [|done].
      intros [= ->]. apply find_principal_first in Hf as (l1 & l2 & ? & ?).
      by exists token, l1, l2.
    + intros (token' & l1 & l2 & [= <-] & Heq & Hno).
      assert (find_principal (tokens (config state)) token = Some p) as ->; [|done].
      apply find_principal_first. by exists l1, l2.
  - rewrite (authenticate_missing _ _ Hb). split; [done|].
    by intros (? & ? & ? & ? & _).
Qed.

(** X2: the token [_bearer_token] hands on is never empty and never begins
    or ends with whitespace: it is a fixed point of [strip].  So a principal
    whose secrets in the table are all empty or padded with whitespace can
    never be authenticated, whatever header is sent. *)
Theorem bearer_token_is_stripped (state : ApiState) (req : Request) (token : string) :
  _bearer_token req = Some token →
  token ≠ "" ∧ PyStr.strip token = token ∧
  ∀ p, (∀ s, (p, s) ∈ tokens (config state) → s = "" ∨ PyStr.strip s ≠ s) →
       authenticate state req ≠ Ok p.
Proof.
  intros Hb. apply _bearer_token_spec in Hb as Hspec.
  destruct Hspec as (auth & _ & _ & Htok & Hne).
  assert (PyStr.strip token = token) as Hstrip.
  { rewrite Htok. apply strip_idemp. }
  split_and!; [done..|]. intros p Hbad Hauth.
  rewrite (authenticate_find _ _ _ Hb) in Hauth.
  destruct (find_principal _ _) as [p'|] eqn:Hf; [|done].
  simplify_eq. apply find_principal_sound in Hf.
  destruct (Hbad _ Hf) as [?|?]; done.
Qed.

(** X3: authentication comes before routing and before the body is read.  A
    request without a valid credential is answered 401 with the failure's
    message by both handlers, whatever its path and body, and a POST leaves
    the filesystem as it was. *)
Theorem unauthenticated_request_rejected_first
    (state : ApiState) (req : Request) (fs : FS) :
  (∀ p, authenticate state req ≠ Ok p) →
  ∃ msg,
    (msg = "Missing Authorization: Bearer <token>" ∨ msg = "Invalid token") ∧
    do_GET state req fs =
      _json_response 401 (error_payload "unauthorized" (AuthError msg)) ∧
    do_POST state req fs =
      (_json_response 401 (error_payload "unauthorized" (AuthError msg)), fs).
Proof.
  intros Hno. destruct (authenticate state req) as [p|e] eqn:Ha.
  { by destruct (Hno p). }
  destruct (authenticate_raises _ _ _ Ha) as [-> | ->].
  - exists "Missing Authorization: Bearer <token>". split; [by left|].
    split; [by apply do_GET_unauthenticated|by apply do_POST_unauthenticated].
  - exists "Invalid token". split; [by right|].
    split; [by apply do_GET_unauthenticated|by apply do_POST_unauthenticated].
Qed.

(** X4: trailing slashes of the request path are insignificant.  Two
    requests that differ only in that the path of one carries one more
    trailing slash get the same answer from [do_GET], and the same answer and
    resulting filesystem from [do_POST]. *)
Theorem trailing_slash_insignificant
    (state : ApiState) (req req' : Request) (fs : FS) :
  authorization req' = authorization req →
  content_length req' = content_length req →
  rfile req' = rfile req →
  url_path req' = url_path req +:+ "/" →
  do_GET state req' fs = do_GET state req fs ∧
  do_POST state req' fs = do_POST state req fs.
Proof.
  intros Hauth Hcl Hrf Hurl.
  assert (PyStr.rstrip_char "/" (url_path req') =
          PyStr.rstrip_char "/" (url_path req)) as Hpath.
  { rewrite Hurl. unfold PyStr.rstrip_char. by apply rstrip_by_snoc. }
  assert (authenticate state req' = authenticate state req) as Ha.
  { unfold authenticate, _bearer_token. by rewrite Hauth. }
  assert (_read_json req' = _read_json req) as Hj.
  { unfold _read_json. by rewrite Hcl, Hrf. }
  split.
  - unfold do_GET, do_GET_body. by rewrite Ha, Hpath.
  - unfold do_POST, do_POST_body. by rewrite Ha, Hpath, Hj.
Qed.

(** ** What a request does to the snapshot *)

Lemma write_entries_written (entries : list json) (buf : string) :
  ∃ written,
    written `prefix_of` entries ∧
    Forall (λ e, entry_accepted e = true) written ∧
    (write_entries entries buf).1 = buf +:+ lines_of written.
Proof.
  revert buf. induction entries as [|e es IH]; intros buf.
  - exists []. split_and!; [done|done|]. simpl. by rewrite string_app_nil_r.
  - destruct (entry_accepted e) eqn:He.
    + rewrite write_entries_step by done.
      destruct (IH (buf +:+ json_dumps e +:+ String newline ""))
        as (ws & Hpre & Hall & ->).
      exists (e :: ws). split_and!.
      * by apply prefix_cons.
      * by constructor.
      * simpl. by rewrite !string_app_assoc.
    + rewrite write_entries_reject by done. exists [].
      split_and!; [apply prefix_nil|done|]. simpl. by rewrite string_app_nil_r.
Qed.

(** The three ways [append_entries] can leave the snapshot. *)
Lemma append_entries_effect (state : ApiState) (agent_id : string)
    (entries : list json) (fs : FS) :
  (append_entries state agent_id entries fs).2 = fs ∨
  Fs.blocked_by_file (Path.parent (log_path state agent_id)) fs = false ∧
  ((fs !! log_path state agent_id = Some Dir ∧
    (append_entries state agent_id entries fs).2 =
      Fs.make_dirs (Path.parent (log_path state agent_id)) fs) ∨
   (fs !! log_path state agent_id ≠ Some Dir ∧
    ∃ written,
      written `prefix_of` entries ∧
      (append_entries state agent_id entries fs).2 =
        <[log_path state agent_id :=
            File (log_content state agent_id fs +:+ lines_of written)]>
          (Fs.make_dirs (Path.parent (log_path state agent_id)) fs))).
Proof.
  unfold append_entries. destruct (_ensure_write_allowed _ _ _); [by left|].
  unfold Fs.mkdir_parents.
  destruct (Fs.blocked_by_file _ _) eqn:Hb; [by left|]. right. split; [done|].
  unfold Fs.open_append. rewrite lookup_node_log, make_dirs_log.
  unfold log_content.
  destruct (fs !! log_path state agent_id) as [[old|]|] eqn:Hl.
  - right. split; [done|].
    destruct (write_entries_written entries old) as (ws & Hpre & _ & Hws).
    exists ws. split; [done|]. rewrite <- Hws.
    by destruct (write_entries entries old) as [? [?|?]].
  - left. by split.
  - right. split; [done|].
    destruct (write_entries_written entries "") as (ws & Hpre & _ & Hws).
    exists ws. split; [done|]. rewrite <- Hws.
    by destruct (write_entries entries "") as [? [?|?]].
Qed.

(** A request either leaves the snapshot alone or is the write of the
    principal it authenticates as, to the namespace of its own name. *)
Lemma do_POST_effect (state : ApiState) (req : Request) (fs : FS) :
  (do_POST state req fs).2 = fs ∨
  ∃ agent_id entries,
    authenticate state req = Ok agent_id ∧
    entries_route (PyStr.rstrip_char "/" (url_path req)) = Some agent_id ∧
    submitted_entries req = Some entries ∧
    do_POST state req fs =
      (post_response (append_entries state agent_id entries fs).1,
       (append_entries state agent_id entries fs).2).
Proof.
  destruct (authenticate state req) as [principal|e] eqn:Ha; last first.
  { left. by rewrite (do_POST_unauthenticated _ _ _ _ Ha). }
  destruct (entries_route (PyStr.rstrip_char "/" (url_path req)))
    as [agent_id|] eqn:Hr; last first.
  { left. unfold do_POST, do_POST_body. by rewrite Ha, Hr. }
  destruct (decide (principal = agent_id)) as [->|Hne]; last first.
  { left. by rewrite (do_POST_namespace_mismatch _ _ _ _ _ Ha Hr Hne). }
  destruct (_read_json req) as [[| | | | |entries|m]|e] eqn:Hj;
    try (left; unfold do_POST, do_POST_body; rewrite Ha, Hr, Hj;
         by rewrite bool_decide_eq_true_2 by done).
  - right. exists agent_id, entries. split_and!; [done|done| |].
    + unfold submitted_entries. by rewrite Hj.
    + by apply do_POST_list.
  - right. exists agent_id, [JDict m]. split_and!; [done|done| |].
    + unfold submitted_entries. by rewrite Hj.
    + by apply do_POST_dict.
Qed.

(** X5: a request never removes, truncates or rewrites anything.  Whatever
    the request and its outcome, every directory of the snapshot is a
    directory afterwards, and every regular file is a regular file whose
    content begins with the content it had. *)
Theorem do_POST_append_only (state : ApiState) (req : Request) (fs : FS) (k : path) :
  (fs !! k = Some Dir → (do_POST state req fs).2 !! k = Some Dir) ∧
  (∀ c, fs !! k = Some (File c) →
        ∃ suffix, (do_POST state req fs).2 !! k = Some (File (c +:+ suffix))).
Proof.
  destruct (do_POST_effect state req fs)
    as [->|(a & es & _ & _ & _ & ->)].
  { split; [done|]. intros c Hc. exists "". by rewrite string_app_nil_r. }
  cbn [snd].
  destruct (append_entries_effect state a es fs)
    as [->|[Hb [[Hdir ->]|[Hnd (ws & _ & ->)]]]].
  - split; [done|]. intros c Hc. exists "". by rewrite string_app_nil_r.
  - split.
    + intros Hk. rewrite make_dirs_lookup. by destruct (decide _).
    + intros c Hc. exists "". rewrite string_app_nil_r, make_dirs_lookup.
      destruct (decide _) as [Hin|]; [|done].
      by destruct (not_blocked_ancestor _ _ _ c Hb Hin).
  - destruct (decide (k = log_path state a)) as [->|Hne].
    + split; [done|]. intros c Hc. exists (lines_of ws).
      rewrite lookup_insert_eq. unfold log_content. by rewrite Hc.
    + rewrite lookup_insert_ne by done. split.
      * intros Hk. rewrite make_dirs_lookup. by destruct (decide _).
      * intros c Hc. exists "". rewrite string_app_nil_r, make_dirs_lookup.
        destruct (decide _) as [Hin|]; [|done].
        by destruct (not_blocked_ancestor _ _ _ c Hb Hin).
Qed.

(** ** The write path at an arbitrary resolved path *)

Lemma append_entries_at_log_path (state : ApiState) (agent_id : string)
    (entries : list json) (fs : FS) :
  append_entries state agent_id entries fs =
  append_entries_at (agent_fs state agent_id) (log_path state agent_id) entries fs.
Proof. reflexivity. Qed.


(** X7: a 201 is answered only when every check has passed.  A request that
    is answered 201 authenticates, names in its path the namespace of the
    authenticated principal, carries a list or an object, has its write
    admitted, and holds only entries that pass the check; the answer reports
    the number of entries, and the snapshot is the old one with the
    directories made and the entries' lines appended to the log. *)
Theorem created_only_when_all_checks_pass
    (state : ApiState) (req : Request) (fs : FS) :
  status (do_POST state req fs).1 = 201 →
  ∃ agent_id entries,
    authenticate state req = Ok agent_id ∧
    entries_route (PyStr.rstrip_char "/" (url_path req)) = Some agent_id ∧
    submitted_entries req = Some entries ∧
    write_admitted state agent_id fs ∧
    Forall (λ e, entry_accepted e = true) entries ∧
    do_POST state req fs =
    (_json_response 201
       (JDict {[ "ok" := JBool true;
                 "written" := JInt (Z.of_nat (length entries)) ]}),
     <[log_path state agent_id :=
         File (log_content state agent_id fs +:+ lines_of entries)]>
       (Fs.make_dirs (Path.parent (log_path state agent_id)) fs)).
Proof.
  intros Hst. destruct (do_POST_created_inv _ _ _ Hst)
    as (a & es & Ha & Hr & Hbody & Hw & Hall & Heq).
  exists a, es. split_and!; [done|done| |done|done|done].
  unfold submitted_entries.
  destruct Hbody as [->|(m & -> & ->)]; done.
Qed.

(** ** Where a request writes *)

(** X8: the agent identifier of the route is one path segment.  Empty
    segments of the request path are skipped, so the identifier is not empty
    and holds no ["/"]; the path the handler hands to [resolve()] is
    therefore [data_dir/agents/<id>/entries.jsonl], and
    [data_dir/agents/entries.jsonl] for the identifier ["."]: an identifier
    can climb one level at most, as [".."].  Two distinct identifiers that
    name directories get allowed roots neither of which lies in the other. *)
Theorem route_agent_id_is_one_segment (state : ApiState) (p agent_id : string) :
  entries_route p = Some agent_id →
  route_parts p = ["v1"; "agents"; agent_id; "entries"] ∧
  agent_id ≠ "" ∧
  PyStr.split "/" agent_id = [agent_id] ∧
  (agent_id ≠ "." →
   Path.join (allowed_root (agent_fs state agent_id)) "entries.jsonl" =
     data_dir (config state) ++ ["agents"; agent_id; "entries.jsonl"]) ∧
  (agent_id = "." →
   Path.join (allowed_root (agent_fs state agent_id)) "entries.jsonl" =
     data_dir (config state) ++ ["agents"; "entries.jsonl"]) ∧
  (∀ q other,
     entries_route q = Some other →
     other ≠ agent_id →
     agent_id ≠ "." → agent_id ≠ ".." → other ≠ "." → other ≠ ".." →
     ¬ overlapping (allowed_root (agent_fs state agent_id))
                   (allowed_root (agent_fs state other))).
Proof.
  intros Hr. destruct (entries_route_component _ _ Hr) as [Hs Hne].
  assert (route_parts p = ["v1"; "agents"; agent_id; "entries"]) as Hparts.
  { unfold entries_route in Hr.
    destruct (route_parts p) as [|p0 [|p1 [|a [|p3 [|]]]]]; try done.
    repeat case_bool_decide; simplify_eq/=; done. }
  split_and!; [done..| | |].
  - intros Hdot. rewrite join_entries_jsonl. unfold agent_fs. simpl.
    rewrite join_agents, (join_component _ _ Hs).
    rewrite decide_True by done. by rewrite <- !app_assoc.
  - intros ->. rewrite join_entries_jsonl. unfold agent_fs. simpl.
    rewrite join_agents, (join_component _ _ Hs).
    rewrite decide_False by (by intros [_ ?]). by rewrite <- !app_assoc.
  - intros q other Hq Hneq Hd Hdd Hod Hodd.
    destruct (entries_route_component _ _ Hq) as [Hos Hone].
    rewrite !agent_fs_allowed_root by done.
    change ["agents"; agent_id] with (["agents"] ++ [agent_id]).
    change ["agents"; other] with (["agents"] ++ [other]).
    rewrite !app_assoc.
    intros [Hpre|Hpre]; apply prefix_app_inv in Hpre;
      destruct Hpre as [t Ht]; by simplify_eq/=.
Qed.

(** ** Bodies and refusals *)

Lemma do_POST_submitted (state : ApiState) (req : Request) (fs : FS)
    (agent_id : string) (entries : list json) :
  authenticate state req = Ok agent_id →
  entries_route (PyStr.rstrip_char "/" (url_path req)) = Some agent_id →
  submitted_entries req = Some entries →
  do_POST state req fs =
  (post_response (append_entries state agent_id entries fs).1,
   (append_entries state agent_id entries fs).2).
Proof.
  intros Ha Hr Hsub. unfold submitted_entries in Hsub.
  destruct (_read_json req) as [[| | | | |l|m]|e] eqn:Hj; simplify_eq.
  - by apply do_POST_list.
  - by apply do_POST_dict.
Qed.

(** X10: a request without a body is answered 400 "Missing JSON body".  When
    the Content-Length header is absent, empty or [0], nothing is read from
    the connection and [json.loads] is not called, so the answer does not
    depend on the bytes that follow; the same answer is given to a body that
    decodes to JSON null.  The filesystem is left as it was. *)
Theorem missing_body_rejected
    (state : ApiState) (req : Request) (fs : FS) (agent_id : string) :
  py_int "0" = Ok 0 →
  authenticate state req = Ok agent_id →
  entries_route (PyStr.rstrip_char "/" (url_path req)) = Some agent_id →
  content_length req = None ∨ content_length req = Some "" ∨
  content_length req = Some "0" ∨ _read_json req = Ok JNull →
  do_POST state req fs =
  (_json_response 400
     (JDict {[ "error" := JStr "bad_request";
               "message" := JStr "Missing JSON body" ]}), fs).
Proof.
  intros Hint Ha Hr Hcl.
  assert (_read_json req = Ok JNull) as Hj.
  { destruct Hcl as [Hc|[Hc|[Hc|?]]]; [| | |done];
      unfold _read_json; rewrite Hc; simpl; by rewrite Hint. }
  unfold do_POST, do_POST_body. rewrite Ha, Hr, Hj.
  by rewrite bool_decide_eq_true_2.
Qed.

(** X11: an admitted write leaves its mark whatever the answer.  After a
    request whose write is admitted, the namespace's log is a regular file
    and every directory above it exists, also when the batch is rejected with
    400; and an empty batch is answered 201 with written = 0, creating the
    log if it was not there and leaving its content as it was. *)
Theorem admitted_write_creates_log
    (state : ApiState) (req : Request) (fs : FS)
    (agent_id : string) (entries : list json) :
  authenticate state req = Ok agent_id →
  entries_route (PyStr.rstrip_char "/" (url_path req)) = Some agent_id →
  submitted_entries req = Some entries →
  write_admitted state agent_id fs →
  (∃ c, (do_POST state req fs).2 !! log_path state agent_id = Some (File c)) ∧
  (∀ d, d ∈ Path.ancestors_and_self (Path.parent (log_path state agent_id)) →
        (do_POST state req fs).2 !! d = Some Dir) ∧
  (entries = [] →
   (do_POST state req fs).1 =
     _json_response 201 (JDict {[ "ok" := JBool true; "written" := JInt 0 ]}) ∧
   log_content state agent_id (do_POST state req fs).2 =
     log_content state agent_id fs).
Proof.
  intros Ha Hr Hsub Hw.
  rewrite (do_POST_submitted _ _ _ _ _ Ha Hr Hsub).
  rewrite (append_entries_admitted _ _ _ _ Hw). cbn [fst snd].
  split_and!.
  - eexists. apply lookup_insert_eq.
  - intros d Hd. rewrite lookup_insert_ne.
    + rewrite make_dirs_lookup. by rewrite decide_True.
    + intros <-. by apply (log_path_not_ancestor state agent_id).
  - intros ->. simpl. split; [done|].
    by rewrite log_content_insert.
Qed.

(** X12: a refused write changes nothing.  When the guard refuses the log's
    path the request is answered 400 with the guard's message, and when a
    regular file stands where a directory of the log's path is needed it is
    answered 500; in both cases no directory is made and no file is
    touched. *)
Theorem refused_write_changes_nothing
    (state : ApiState) (req : Request) (fs : FS)
    (agent_id : string) (entries : list json) :
  authenticate state req = Ok agent_id →
  entries_route (PyStr.rstrip_char "/" (url_path req)) = Some agent_id →
  submitted_entries req = Some entries →
  (∀ msg,
     _ensure_write_allowed (agent_fs state agent_id) fs
       (log_path state agent_id) = Some msg →
     do_POST state req fs =
       (_json_response 400
          (error_payload "bad_request" (SandboxViolation msg)), fs)) ∧
  (_ensure_write_allowed (agent_fs state agent_id) fs
     (log_path state agent_id) = None →
   Fs.blocked_by_file (Path.parent (log_path state agent_id)) fs = true →
   status (do_POST state req fs).1 = 500 ∧ (do_POST state req fs).2 = fs).
Proof.
  intros Ha Hr Hsub.
  rewrite (do_POST_submitted _ _ _ _ _ Ha Hr Hsub).
  unfold append_entries. split.
  - intros msg ->. done.
  - intros -> Hb. unfold Fs.mkdir_parents. by rewrite Hb.
Qed.

(** ** Consecutive requests *)

Lemma do_POST_created (state : ApiState) (req : Request) (fs : FS)
    (agent_id : string) (entries : list json) :
  authenticate state req = Ok agent_id →
  entries_route (PyStr.rstrip_char "/" (url_path req)) = Some agent_id →
  submitted_entries req = Some entries →
  write_admitted state agent_id fs →
  Forall (λ e, entry_accepted e = true) entries →
  do_POST state req fs =
  (_json_response 201
     (JDict {[ "ok" := JBool true;
               "written" := JInt (Z.of_nat (length entries)) ]}),
   <[log_path state agent_id :=
       File (log_content state agent_id fs +:+ lines_of entries)]>
     (Fs.make_dirs (Path.parent (log_path state agent_id)) fs)).
Proof.
  intros Ha Hr Hsub Hw Hall.
  rewrite (do_POST_submitted _ _ _ _ _ Ha Hr Hsub).
  rewrite (append_entries_admitted _ _ _ _ Hw).
  by rewrite (write_entries_all _ _ Hall).
Qed.

Lemma do_POST_created_conditions (state : ApiState) (req : Request) (fs : FS) :
  status (do_POST state req fs).1 = 201 →
  ∃ agent_id entries,
    authenticate state req = Ok agent_id ∧
    entries_route (PyStr.rstrip_char "/" (url_path req)) = Some agent_id ∧
    submitted_entries req = Some entries ∧
    write_admitted state agent_id fs ∧
    Forall (λ e, entry_accepted e = true) entries.
Proof.
  intros Hst. destruct (do_POST_created_inv _ _ _ Hst)
    as (a & es & Ha & Hr & Hbody & Hw & Hall & Heq).
  exists a, es. split_and!; [done|done| |done|done].
  unfold submitted_entries.
  destruct Hbody as [->|(m & -> & ->)]; done.
Qed.

Lemma authenticate_same_header (state : ApiState) (req req' : Request) :
  authorization req' = authorization req →
  authenticate state req' = authenticate state req.
Proof. intros Hh. unfold authenticate, _bearer_token. by rewrite Hh. Qed.

(** X13: two batches submitted one after the other leave what one batch of
    all their entries leaves.  If a request is answered 201 and a second
    request of the same principal, run on the resulting snapshot, is answered
    201, then a request carrying the entries of both, run on the first
    snapshot, is answered 201 with the sum of the counts and results in the
    same snapshot. *)
Theorem consecutive_batches_compose
    (state : ApiState) (req1 req2 req12 : Request) (fs : FS)
    (es1 es2 : list json) :
  authorization req2 = authorization req1 →
  authorization req12 = authorization req1 →
  url_path req2 = url_path req1 →
  url_path req12 = url_path req1 →
  submitted_entries req1 = Some es1 →
  submitted_entries req2 = Some es2 →
  submitted_entries req12 = Some (es1 ++ es2) →
  status (do_POST state req1 fs).1 = 201 →
  status (do_POST state req2 (do_POST state req1 fs).2).1 = 201 →
  do_POST state req12 fs =
  (_json_response 201
     (JDict {[ "ok" := JBool true;
               "written" := JInt (Z.of_nat (length es1 + length es2)) ]}),
   (do_POST state req2 (do_POST state req1 fs).2).2).
Proof.
  intros Hh2 Hh12 Hu2 Hu12 Hs1 Hs2 Hs12 Hst1 Hst2.
  apply do_POST_created_conditions in Hst1
    as (a & e1 & Ha & Hr & Hs1' & Hw & Hall1).
  assert (e1 = es1) as -> by congruence.
  rewrite (do_POST_created _ _ _ _ _ Ha Hr Hs1 Hw Hall1) in Hst2 |- *.
  cbn [snd] in Hst2 |- *.
  apply do_POST_created_conditions in Hst2
    as (a2 & e2 & Ha2 & Hr2 & Hs2' & Hw2 & Hall2).
  assert (e2 = es2) as -> by congruence.
  assert (a2 = a) as ->.
  { rewrite (authenticate_same_header _ _ _ Hh2) in Ha2. congruence. }
  rewrite (do_POST_created _ _ _ _ _ Ha2 Hr2 Hs2 Hw2 Hall2). cbn [snd].
  rewrite (do_POST_created state req12 fs a (es1 ++ es2)); last first.
  { by apply Forall_app. }
  { done. }
  { done. }
  { by rewrite Hu12. }
  { by rewrite (authenticate_same_header _ _ _ Hh12). }
  f_equal.
  - by rewrite length_app, Nat2Z.inj_add.
  - rewrite log_content_insert. apply map_eq. intros k.
    destruct (decide (k = log_path state a)) as [->|Hk].
    + rewrite !lookup_insert_eq. by rewrite lines_of_app, string_app_assoc.
    + rewrite !lookup_insert_ne by done. rewrite !make_dirs_lookup.
      destruct (decide _) as [|Hn]; [done|].
      rewrite lookup_insert_ne by done. rewrite make_dirs_lookup.
      by rewrite decide_False.
Qed.

(** ** The expected hash *)

Lemma lstrip_all_space (lead s : string) :
  all_space lead = true →
  PyStr.lstrip_by PyStr.isspace (lead +:+ s) = PyStr.lstrip_by PyStr.isspace s.
Proof.
  induction lead as [|c lead IH]; [done|]. intros Hall. simpl in Hall.
  apply andb_true_iff in Hall as [Hc Hl]. rewrite string_app_cons. simpl.
  rewrite Hc. by apply IH.
Qed.

Lemma rstrip_by_app (p : ascii → bool) (a b : string) :
  PyStr.rstrip_by p (a +:+ b) =
  match PyStr.rstrip_by p b with
  | EmptyString => PyStr.rstrip_by p a
  | r => a +:+ r
  end.
Proof.
  induction a as [|c a IH].
  - change ("" +:+ b) with b. destruct (PyStr.rstrip_by p b); reflexivity.
  - rewrite string_app_cons. simpl. rewrite IH.
    destruct (PyStr.rstrip_by p b) as [|d r]; [reflexivity|].
    destruct a; reflexivity.
Qed.

Lemma rstrip_no_space (h : string) :
  no_space h = true → PyStr.rstrip_by PyStr.isspace h = h.
Proof.
  induction h as [|c h IH]; [done|]. simpl.
  intros [Hc Hh]%andb_true_iff. rewrite (IH Hh).
  destruct h; [|done]. by apply negb_true_iff in Hc as ->.
Qed.

Lemma rstrip_space_led (r : string) :
  space_led r = true → space_led (PyStr.rstrip_by PyStr.isspace r) = true.
Proof.
  destruct r as [|c r]; [done|]. simpl. intros Hc.
  destruct (PyStr.rstrip_by PyStr.isspace r); simpl; [|done]. by rewrite Hc.
Qed.

Lemma split_ws_token (h r : string) :
  h ≠ "" → no_space h = true → space_led r = true →
  PyStr.split_ws (h +:+ r) = h :: PyStr.split_ws r.
Proof.
  induction h as [|c h IH]; [done|]. intros _ Hns Hr. simpl in Hns.
  apply andb_true_iff in Hns as [Hc Hh]. apply negb_true_iff in Hc.
  rewrite string_app_cons. simpl. rewrite Hc.
  destruct h as [|d h].
  - change ("" +:+ r) with r. destruct r as [|e r]; [done|].
    simpl in Hr. by rewrite Hr.
  - rewrite string_app_cons. rewrite <- string_app_cons.
    rewrite IH by done. simpl in Hh.
    apply andb_true_iff in Hh as [Hd _]. apply negb_true_iff in Hd.
    by rewrite Hd.
Qed.

Lemma strip_all_space (s : string) : all_space s = true → PyStr.strip s = "".
Proof.
  intros Hs. unfold PyStr.strip.
  rewrite <- (string_app_nil_r s), lstrip_all_space by done. done.
Qed.

(** X14: the expected hash is the first whitespace-delimited word of the
    companion file.  Whitespace before it is skipped and whatever follows
    the word after whitespace, a file name or a line break, is ignored; so
    the file may be written as a bare hash or in the format of [sha256sum]. *)
Theorem expected_hash_is_first_word
    (state : ApiState) (fs : FS) (lead h rest : string) :
  Fs.read fs (core_hash_path (config state)) = Ok (lead +:+ h +:+ rest) →
  all_space lead = true →
  h ≠ "" → no_space h = true →
  space_led rest = true →
  expected_core_sha256 state fs = Ok h.
Proof.
  intros Hread Hlead Hne Hh Hrest. unfold expected_core_sha256.
  rewrite Hread. simpl. unfold PyStr.strip.
  rewrite lstrip_all_space by done.
  assert (PyStr.lstrip_by PyStr.isspace (h +:+ rest) = h +:+ rest) as ->.
  { destruct h as [|c h]; [done|]. rewrite string_app_cons. simpl.
    simpl in Hh. apply andb_true_iff in Hh as [Hc _].
    by apply negb_true_iff in Hc as ->. }
  assert (∃ r, PyStr.rstrip_by PyStr.isspace (h +:+ rest) = h +:+ r ∧
               space_led r = true) as (r & -> & Hr).
  { rewrite rstrip_by_app. pose proof (rstrip_space_led rest Hrest) as Hled.
    destruct (PyStr.rstrip_by PyStr.isspace rest) as [|c r'] eqn:Hrs.
    - exists "". by rewrite rstrip_no_space, string_app_nil_r.
    - by exists (String c r'). }
  by rewrite split_ws_token.
Qed.

(** X15: a companion file that is empty or holds only whitespace has no first
    word: reading the expected hash raises [IndexError], and both corpus
    routes answer 500 with its message, before the corpus file is looked
    at. *)
Theorem blank_hash_file_is_server_error
    (state : ApiState) (req : Request) (fs : FS) (principal text : string) :
  authenticate state req = Ok principal →
  Fs.read fs (core_hash_path (config state)) = Ok text →
  all_space text = true →
  PyStr.rstrip_char "/" (url_path req) = "/v1/core/hash" ∨
  PyStr.rstrip_char "/" (url_path req) = "/v1/core/records" →
  expected_core_sha256 state fs = Raise (OtherError "list index out of range") ∧
  do_GET state req fs =
    _json_response 500
      (error_payload "server_error" (OtherError "list index out of range")).
Proof.
  intros Ha Hread Hblank Hroute.
  assert (expected_core_sha256 state fs =
          Raise (OtherError "list index out of range")) as He.
  { unfold expected_core_sha256. rewrite Hread. simpl.
    by rewrite strip_all_space. }
  split; [done|]. unfold do_GET, do_GET_body. rewrite Ha. simpl.
  destruct Hroute as [-> | ->]; simpl.
  - by rewrite He.
  - unfold core_dataset. by rewrite He.
Qed.

(** ** Discovery *)

(** X16: the logs [/v1/aggregate] reads.  In a well-formed snapshot the
    discovery loop fails only when the namespaces directory is a regular
    file; otherwise it lists, each once, exactly the regular files named
    [entries.jsonl] that lie in a child of the namespaces directory, and
    lists nothing when that directory does not exist. *)
Theorem discovery_lists_namespace_logs (state : ApiState) (fs : FS) :
  Fs.wf fs →
  match fs !! agents_dir state with
  | Some (File _) =>
      entry_paths state fs = Raise (OtherError "[Errno 20] Not a directory")
  | Some Dir =>
      ∃ ps, entry_paths state fs = Ok ps ∧ NoDup ps ∧
            ∀ p, p ∈ ps ↔ discovered state fs p
  | None => entry_paths state fs = Ok []
  end.
Proof.
  intros Hwf. destruct (fs !! agents_dir state) as [[c|]|] eqn:Hr.
  - unfold entry_paths, Fs.exists_, Fs.iterdir.
    rewrite lookup_node_agents_dir, Hr.
    by rewrite bool_decide_eq_true_2.
  - apply entry_paths_before; [done|]. intros c. by rewrite Hr.
  - by apply entry_paths_absent.
Qed.

(** X17: with a valid credential, [/v1/aggregate] on a data directory
    without a namespaces directory answers 200 with no entries and count 0;
    when a regular file stands in the place of the namespaces directory it
    answers 500. *)
Theorem aggregate_without_namespaces
    (state : ApiState) (req : Request) (fs : FS) (principal : string) :
  authenticate state req = Ok principal →
  PyStr.rstrip_char "/" (url_path req) = "/v1/aggregate" →
  (fs !! agents_dir state = None →
   do_GET state req fs =
     _json_response 200
       (JDict {[ "entries" := JList []; "count" := JInt 0 ]})) ∧
  (∀ c, fs !! agents_dir state = Some (File c) →
        status (do_GET state req fs) = 500).
Proof.
  intros Ha Hp. split.
  - intros Hnone. apply (do_GET_aggregate _ _ _ principal []); [done..|].
    unfold aggregated_view. by rewrite entry_paths_absent.
  - intros c Hc. unfold do_GET, do_GET_body. rewrite Ha. simpl.
    rewrite Hp. simpl. unfold entry_paths, Fs.exists_, Fs.iterdir.
    rewrite lookup_node_agents_dir, Hc.
    by rewrite bool_decide_eq_true_2.
Qed.

(** ** A guard in which deny roots always win *)


End Gateway.
(** ** The claims at concrete requests *)

Import Sample Examples.

(** C1, counterexample: [alpha], holding a valid credential, submits to the
    namespace [beta].  The request is rejected and writes nothing, but the
    rejection carries the kind of the [except AuthError] clause, status 401
    with the error tag [unauthorized], the kind of a request without any
    credential; it is not set apart as Forbidden. *)
Lemma namespace_mismatch_rejected_as_unauthorized :
  authenticate state alpha_to_beta = Ok "alpha" ∧
  entries_route (PyStr.rstrip_char "/" (url_path alpha_to_beta)) = Some "beta" ∧
  (@do_POST externals state alpha_to_beta ∅).2 = ∅ ∧
  surfaced_kind (@do_POST externals state alpha_to_beta ∅).1 = kind_unauthorized ∧
  surfaced_kind (@do_POST externals state alpha_to_beta ∅).1 =
  surfaced_kind
    (@do_POST externals state (anonymous "/v1/agents/beta/entries") ∅).1.
Proof. split_and!; vm_compute; reflexivity. Qed.

Lemma namespace_gate_before_write_witness :
  authenticate state alpha_to_beta = Ok "alpha" ∧
  entries_route (PyStr.rstrip_char "/" (url_path alpha_to_beta)) = Some "beta" ∧
  @do_POST externals state alpha_to_beta one_entry =
    (namespace_mismatch_response, one_entry).
Proof.
  split; [reflexivity|]. split; [reflexivity|].
  apply (@namespace_gate_before_write externals state alpha_to_beta one_entry
           "alpha" "beta" eq_refl eq_refl).
  discriminate.
Defined.

(** C2, counterexample: a batch of three entries whose second entry has a
    string for projection, submitted to an empty data directory.  The request
    is answered 400, and the log, which held nothing, holds the line of the
    first entry afterwards. *)
Lemma rejected_batch_leaves_first_entry :
  @submitted_entries externals alpha_mixed_batch =
    Some [observation "S1"; JDict {[ "projection" := JStr "x" ]}; observation "S2"] ∧
  status (@do_POST externals state alpha_mixed_batch ∅).1 = 400 ∧
  log_content state "alpha" ∅ = "" ∧
  log_content state "alpha" (@do_POST externals state alpha_mixed_batch ∅).2 =
    "S:S1" +:+ String newline "".
Proof. split_and!; vm_compute; reflexivity. Qed.

Lemma rejected_batch_keeps_accepted_prefix_witness :
  authenticate state alpha_mixed_batch = Ok "alpha" ∧
  @write_admitted externals state "alpha" one_entry ∧
  log_content state "alpha" (@do_POST externals state alpha_mixed_batch one_entry).2 =
    log_content state "alpha" one_entry +:+ @lines_of externals [observation "S1"].
Proof.
  split; [reflexivity|].
  assert (@write_admitted externals state "alpha" one_entry) as Hw.
  { split; [reflexivity|]. split; [reflexivity|]. vm_compute. discriminate. }
  split; [exact Hw|].
  refine (proj2 (proj1 (proj2
    (@rejected_batch_keeps_accepted_prefix externals state alpha_mixed_batch
       one_entry "alpha" [observation "S1"] (JDict {[ "projection" := JStr "x" ]})
       [observation "S2"] eq_refl eq_refl eq_refl _ eq_refl)) Hw)).
  repeat constructor.
Defined.

(** The same at a concrete request: [alpha] submits one entry whose
    projection is classified [S9].  The request is answered 201 and the entry
    is in the log. *)
Lemma unrecognised_state_is_written :
  @submitted_entries externals
     (request "token-a" "/v1/agents/alpha/entries" "S:S9") =
    Some [observation "S9"] ∧
  status (@do_POST externals state
            (request "token-a" "/v1/agents/alpha/entries" "S:S9") ∅).1 = 201 ∧
  log_content state "alpha"
    (@do_POST externals state
       (request "token-a" "/v1/agents/alpha/entries" "S:S9") ∅).2 =
    "S:S9" +:+ String newline "".
Proof. split_and!; vm_compute; reflexivity. Qed.

(** C4, counterexample: the sandbox of the agent [alpha].  Its allowed root
    [/srv/data/agents/alpha] lies below [/srv/data/agents], which is one of
    its deny roots; the sandbox is made all the same. *)
Lemma alpha_sandbox_not_disjoint :
  allowed_root (agent_fs state "alpha") = ["srv"; "data"; "agents"; "alpha"] ∧
  deny_roots (agent_fs state "alpha") =
    [["srv"; "core"]; ["srv"; "data"; "agents"]] ∧
  ¬ roots_disjoint (agent_fs state "alpha").
Proof.
  split; [reflexivity|]. split; [reflexivity|].
  intros Hdis. apply (Hdis ["srv"; "data"; "agents"]).
  - apply list_elem_of_further, list_elem_of_here.
  - right. by exists ["alpha"].
Qed.

Lemma allowed_root_inside_deny_root_witness :
  PyStr.split "/" "alpha" = ["alpha"] ∧
  allowed_root (agent_fs state "alpha") =
    (data_dir (config state) ++ ["agents"]) ++ ["alpha"].
Proof.
  split; [reflexivity|].
  apply (allowed_root_inside_deny_root state "alpha" eq_refl); discriminate.
Defined.

(** C6, counterexample: [alpha] submitting to [beta], a request with a token
    of no principal, and a request without credentials are answered with one
    and the same surfaced kind. *)
Lemma mismatch_kind_equals_unauthorized_kind :
  authenticate state alpha_to_beta = Ok "alpha" ∧
  authenticate state wrong_token = Raise (AuthError "Invalid token") ∧
  surfaced_kind (@do_POST externals state alpha_to_beta ∅).1 =
    surfaced_kind (@do_POST externals state wrong_token ∅).1 ∧
  surfaced_kind (@do_POST externals state alpha_to_beta ∅).1 =
    surfaced_kind
      (@do_POST externals state (anonymous "/v1/agents/beta/entries") ∅).1.
Proof. split_and!; vm_compute; reflexivity. Qed.

Lemma namespace_mismatch_surfaced_as_unauthorized_witness :
  authenticate state alpha_to_beta = Ok "alpha" ∧
  entries_route (PyStr.rstrip_char "/" (url_path alpha_to_beta)) = Some "beta" ∧
  (@do_POST externals state alpha_to_beta ∅).1 = namespace_mismatch_response.
Proof.
  split; [reflexivity|]. split; [reflexivity|].
  apply (@namespace_mismatch_surfaced_as_unauthorized externals state
           alpha_to_beta ∅ "alpha" "beta" eq_refl eq_refl).
  discriminate.
Defined.

(** C8, counterexample: a health check without credentials is answered 401,
    not with the liveness flag. *)
Lemma health_check_without_credential_fails :
  PyStr.rstrip_char "/" (url_path (anonymous "/v1/health")) = "/v1/health" ∧
  @do_GET externals state (anonymous "/v1/health") ∅ =
    _json_response 401
      (error_payload "unauthorized"
         (AuthError "Missing Authorization: Bearer <token>")).
Proof. split; vm_compute; reflexivity. Qed.

Lemma health_check_needs_credential_witness :
  PyStr.rstrip_char "/" (url_path (request "token-b" "/v1/health/" "")) =
    "/v1/health" ∧
  @do_GET externals state (request "token-b" "/v1/health/" "") one_entry =
    _json_response 200 (JDict {[ "ok" := JBool true ]}).
Proof.
  split; [reflexivity|].
  exact (@health_check_needs_credential externals state
           (request "token-b" "/v1/health/" "") one_entry eq_refl).
Defined.

Lemma authenticate_exact_match_witness :
  _bearer_token alpha_single = Some "token-a" ∧
  ("alpha", "token-a") ∈ tokens (config state) ∧
  authenticate state (request "token" "/v1/health" "") =
    Raise (AuthError "Invalid token").
Proof.
  split; [reflexivity|]. split.
  - apply (proj1 (authenticate_exact_match state alpha_single "token-a" eq_refl)).
    reflexivity.
  - apply (proj2 (proj2 (proj2
      (authenticate_exact_match state (request "token" "/v1/health" "")
         "token" eq_refl)))).
    intros p s Hin.
    repeat (apply elem_of_cons in Hin as [Heq|Hin];
            [injection Heq as -> ->; discriminate|]).
    by apply elem_of_nil in Hin.
Defined.

Lemma single_object_is_singleton_batch_witness :
  @_read_json externals alpha_single = Ok (observation "S3") ∧
  @_read_json externals alpha_single_listed = Ok (JList [observation "S3"]) ∧
  @write_admitted externals state "alpha" one_entry ∧
  @do_POST externals state alpha_single_listed one_entry =
    @do_POST externals state alpha_single one_entry ∧
  status (@do_POST externals state alpha_single one_entry).1 = 201 ∧
  payload (@do_POST externals state alpha_single one_entry).1 =
    JDict {[ "ok" := JBool true; "written" := JInt 1 ]} ∧
  log_content state "alpha" (@do_POST externals state alpha_single one_entry).2 =
    log_content state "alpha" one_entry +:+ "S:S3" +:+ String newline "".
Proof.
  split; [reflexivity|]. split; [reflexivity|].
  assert (@write_admitted externals state "alpha" one_entry) as Hw.
  { split; [reflexivity|]. split; [reflexivity|]. vm_compute. discriminate. }
  split; [exact Hw|].
  pose proof (@single_object_is_singleton_batch externals state alpha_single
                alpha_single_listed one_entry
                {[ "projection" := JDict {[ "state" := JStr "S3" ]} ]}
                eq_refl eq_refl eq_refl eq_refl) as [Hsame [Haccept _]].
  split; [exact Hsame|].
  rewrite (Haccept "alpha" eq_refl eq_refl Hw eq_refl).
  split; [reflexivity|]. split; [reflexivity|].
  cbn [snd]. rewrite log_content_insert. reflexivity.
Defined.

Lemma read_corpus_checks_hash_witness :
  expected_core_sha256 state (with_corpus (digest corpus_text)) =
    Ok (digest corpus_text) ∧
  @do_GET externals state (request "token-b" "/v1/core/records" "")
     (with_corpus (digest corpus_text)) =
    _json_response 200 (JDict {[ "records" := JList [JStr "r1"; JStr "r2"] ]}) ∧
  @do_GET_body externals state (request "token-b" "/v1/core/records" "")
     (with_corpus "0000") =
    Raise (IntegrityViolation "core dataset hash mismatch").
Proof.
  split; [reflexivity|]. split.
  - apply (@read_corpus_checks_hash externals state
             (request "token-b" "/v1/core/records" "")
             (with_corpus (digest corpus_text)) "beta" (digest corpus_text)
             corpus_text eq_refl eq_refl eq_refl eq_refl).
    reflexivity.
  - apply (@read_corpus_checks_hash externals state
             (request "token-b" "/v1/core/records" "")
             (with_corpus "0000") "beta" "0000"
             corpus_text eq_refl eq_refl eq_refl eq_refl).
    discriminate.
Defined.

Lemma submitted_batch_round_trip_witness :
  status (@do_POST externals state alpha_batch one_entry).1 = 201 ∧
  Fs.wf one_entry ∧
  @log_entries externals
     (log_content state "alpha" (@do_POST externals state alpha_batch one_entry).2) =
    @log_entries externals (log_content state "alpha" one_entry)
      ++ [observation "S2"; observation "S3"].
Proof.
  split; [reflexivity|].
  assert (Fs.wf one_entry) as Hwf.
  { refine (bool_decide_unpack (Fs.wf one_entry) _). vm_compute. exact I. }
  split; [exact Hwf|].
  refine (proj1 (proj2 (proj2
    (@submitted_batch_round_trip externals state alpha_batch one_entry "alpha"
       [observation "S2"; observation "S3"]
       eq_refl eq_refl eq_refl _ _ Hwf _ _)))).
  - discriminate.
  - discriminate.
  - right. exists "S:S1". reflexivity.
  - repeat constructor.
Defined.

(** C7, counterexample: the credential table binds a principal named
    [".."].  Its submission of one entry to the namespace [".."] is answered
    201 with written = 1, and the entry is in the log that [resolve()] selects,
    [entries.jsonl] directly in the data directory; but that file lies in no
    child of the namespaces directory, so the aggregated view afterwards holds
    no entry at all.  The principal named ["."] fares the same. *)
Lemma dot_namespaces_missing_from_view :
  authenticate parent_state parent_request = Ok ".." ∧
  @submitted_entries externals parent_request = Some [observation "S3"] ∧
  status (@do_POST externals parent_state parent_request ∅).1 = 201 ∧
  payload (@do_POST externals parent_state parent_request ∅).1 =
    JDict {[ "ok" := JBool true; "written" := JInt 1 ]} ∧
  log_path parent_state ".." = ["srv"; "data"; "entries.jsonl"] ∧
  log_content parent_state ".."
    (@do_POST externals parent_state parent_request ∅).2 =
    "S:S3" +:+ String newline "" ∧
  @aggregated_view externals parent_state
    (@do_POST externals parent_state parent_request ∅).2 = Ok [] ∧
  status (@do_POST externals parent_state here_request ∅).1 = 201 ∧
  @aggregated_view externals parent_state
    (@do_POST externals parent_state here_request ∅).2 = Ok [].
Proof. split_and!; vm_compute; reflexivity. Qed.

(** ** The further properties at concrete requests *)

Lemma bearer_token_is_stripped_witness :
  _bearer_token (mkRequest (Some "Bearer   token-a  ") "/v1/health" None "") =
    Some "token-a" ∧
  PyStr.strip "token-a" = "token-a".
Proof.
  split; [reflexivity|].
  apply (bearer_token_is_stripped state
           (mkRequest (Some "Bearer   token-a  ") "/v1/health" None "")
           "token-a" eq_refl).
Defined.

Lemma unauthenticated_request_rejected_first_witness :
  (∀ p, authenticate state (anonymous "/v1/nowhere") ≠ Ok p) ∧
  ∃ msg,
    (msg = "Missing Authorization: Bearer <token>" ∨ msg = "Invalid token") ∧
    @do_GET externals state (anonymous "/v1/nowhere") one_entry =
      _json_response 401 (error_payload "unauthorized" (AuthError msg)) ∧
    @do_POST externals state (anonymous "/v1/nowhere") one_entry =
      (_json_response 401 (error_payload "unauthorized" (AuthError msg)),
       one_entry).
Proof.
  assert (∀ p, authenticate state (anonymous "/v1/nowhere") ≠ Ok p) as Hno
    by (intros p; discriminate).
  split; [exact Hno|].
  exact (@unauthenticated_request_rejected_first externals state
           (anonymous "/v1/nowhere") one_entry Hno).
Defined.

Lemma trailing_slash_insignificant_witness :
  url_path (request "token-a" "/v1/agents/alpha/entries/" "S:S3") =
    url_path alpha_single +:+ "/" ∧
  @do_POST externals state
     (request "token-a" "/v1/agents/alpha/entries/" "S:S3") one_entry =
    @do_POST externals state alpha_single one_entry.
Proof.
  split; [reflexivity|].
  apply (@trailing_slash_insignificant externals state alpha_single
           (request "token-a" "/v1/agents/alpha/entries/" "S:S3") one_entry
           eq_refl eq_refl eq_refl eq_refl).
Defined.


Lemma missing_body_rejected_witness :
  @py_int externals "0" = Ok 0 ∧
  content_length alpha_no_length = None ∧
  @do_POST externals state alpha_no_length one_entry =
    (_json_response 400
       (JDict {[ "error" := JStr "bad_request";
                 "message" := JStr "Missing JSON body" ]}), one_entry).
Proof.
  split; [reflexivity|]. split; [reflexivity|].
  apply (@missing_body_rejected externals state alpha_no_length one_entry
           "alpha" eq_refl eq_refl eq_refl).
  by left.
Defined.

Lemma admitted_write_creates_log_witness :
  @submitted_entries externals alpha_mixed_batch =
    Some [observation "S1"; JDict {[ "projection" := JStr "x" ]}; observation "S2"] ∧
  @write_admitted externals state "alpha" ∅ ∧
  ∃ c, (@do_POST externals state alpha_mixed_batch ∅).2
         !! log_path state "alpha" = Some (File c).
Proof.
  split; [reflexivity|].
  assert (@write_admitted externals state "alpha" ∅) as Hw.
  { split; [reflexivity|]. split; [reflexivity|]. vm_compute. discriminate. }
  split; [exact Hw|].
  exact (proj1
    (@admitted_write_creates_log externals state alpha_mixed_batch ∅ "alpha"
       [observation "S1"; JDict {[ "projection" := JStr "x" ]}; observation "S2"]
       eq_refl eq_refl eq_refl Hw)).
Defined.

Lemma refused_write_changes_nothing_witness :
  authenticate state alpha_single = Ok "alpha" ∧
  @do_POST strict_externals state alpha_single one_entry =
    (_json_response 400
       (error_payload "bad_request"
          (SandboxViolation "write inside a denied root")), one_entry) ∧
  status (@do_POST externals state alpha_single data_is_file).1 = 500 ∧
  (@do_POST externals state alpha_single data_is_file).2 = data_is_file.
Proof.
  split; [reflexivity|]. split.
  - apply (proj1
      (@refused_write_changes_nothing strict_externals state alpha_single
         one_entry "alpha" [observation "S3"] eq_refl eq_refl eq_refl)).
    reflexivity.
  - apply (proj2
      (@refused_write_changes_nothing externals state alpha_single
         data_is_file "alpha" [observation "S3"] eq_refl eq_refl eq_refl));
      reflexivity.
Defined.

Lemma consecutive_batches_compose_witness :
  status (@do_POST externals state
            (request "token-a" "/v1/agents/alpha/entries" "S:S1") ∅).1 = 201 ∧
  status (@do_POST externals state
            (request "token-a" "/v1/agents/alpha/entries" "LS:S2;S:S3")
            one_entry).1 = 201 ∧
  @do_POST externals state
     (request "token-a" "/v1/agents/alpha/entries" "LS:S1;S:S2;S:S3") ∅ =
    (_json_response 201
       (JDict {[ "ok" := JBool true; "written" := JInt (Z.of_nat (1 + 2)) ]}),
     (@do_POST externals state
        (request "token-a" "/v1/agents/alpha/entries" "LS:S2;S:S3")
        one_entry).2).
Proof.
  split; [reflexivity|]. split; [reflexivity|].
  exact (@consecutive_batches_compose externals state
           (request "token-a" "/v1/agents/alpha/entries" "S:S1")
           (request "token-a" "/v1/agents/alpha/entries" "LS:S2;S:S3")
           (request "token-a" "/v1/agents/alpha/entries" "LS:S1;S:S2;S:S3")
           ∅ [observation "S1"] [observation "S2"; observation "S3"]
           eq_refl eq_refl eq_refl eq_refl eq_refl eq_refl eq_refl
           eq_refl eq_refl).
Defined.

Lemma expected_hash_is_first_word_witness :
  Fs.read (with_corpus (" abc123  core.jsonl" +:+ String newline ""))
     (core_hash_path (config state)) =
    Ok (" " +:+ "abc123" +:+ ("  core.jsonl" +:+ String newline "")) ∧
  expected_core_sha256 state
     (with_corpus (" abc123  core.jsonl" +:+ String newline "")) = Ok "abc123".
Proof.
  split; [reflexivity|].
  apply (expected_hash_is_first_word state
           (with_corpus (" abc123  core.jsonl" +:+ String newline ""))
           " " "abc123" ("  core.jsonl" +:+ String newline "") eq_refl eq_refl);
    [discriminate|reflexivity|reflexivity].
Defined.

Lemma blank_hash_file_is_server_error_witness :
  Fs.read (with_corpus (String newline " ")) (core_hash_path (config state)) =
    Ok (String newline " ") ∧
  @do_GET externals state (request "token-b" "/v1/core/hash" "")
     (with_corpus (String newline " ")) =
    _json_response 500
      (error_payload "server_error" (OtherError "list index out of range")).
Proof.
  split; [reflexivity|].
  apply (@blank_hash_file_is_server_error externals state
           (request "token-b" "/v1/core/hash" "")
           (with_corpus (String newline " ")) "beta" (String newline " ")
           eq_refl eq_refl eq_refl).
  by left.
Defined.

Lemma discovery_lists_namespace_logs_witness :
  Fs.wf one_entry ∧
  ∃ ps, @entry_paths state one_entry = Ok ps ∧ NoDup ps ∧
        ∀ p, p ∈ ps ↔ discovered state one_entry p.
Proof.
  assert (Fs.wf one_entry) as Hwf.
  { refine (bool_decide_unpack (Fs.wf one_entry) _). vm_compute. exact I. }
  split; [exact Hwf|].
  exact (discovery_lists_namespace_logs state one_entry Hwf).
Defined.

Lemma aggregate_without_namespaces_witness :
  authenticate state (request "token-b" "/v1/aggregate" "") = Ok "beta" ∧
  @do_GET externals state (request "token-b" "/v1/aggregate" "") ∅ =
    _json_response 200 (JDict {[ "entries" := JList []; "count" := JInt 0 ]}) ∧
  status (@do_GET externals state (request "token-b" "/v1/aggregate" "")
            agents_is_file) = 500.
Proof.
  split; [reflexivity|]. split.
  - apply (proj1
      (@aggregate_without_namespaces externals state
         (request "token-b" "/v1/aggregate" "") ∅ "beta" eq_refl eq_refl)).
    reflexivity.
  - apply (proj2
      (@aggregate_without_namespaces externals state
         (request "token-b" "/v1/aggregate" "") agents_is_file "beta"
         eq_refl eq_refl) "x").
    reflexivity.
Defined.

Lemma do_POST_wf_witness :
  Fs.wf (with_corpus "0000") ∧
  Fs.wf (@do_POST externals state alpha_mixed_batch (with_corpus "0000")).2.
Proof.
  assert (Fs.wf (with_corpus "0000")) as Hwf.
  { refine (bool_decide_unpack (Fs.wf (with_corpus "0000")) _).
    vm_compute. exact I. }
  split; [exact Hwf|].
  exact (@do_POST_wf externals state alpha_mixed_batch (with_corpus "0000") Hwf).
Defined.

Lemma do_POST_log_terminated_witness :
  log_terminated (log_content state "alpha" one_entry) ∧
  log_terminated
    (log_content state "alpha"
       (@do_POST externals state alpha_mixed_batch one_entry).2).
Proof.
  assert (log_terminated (log_content state "alpha" one_entry)) as Ht.
  { right. exists "S:S1". reflexivity. }
  split; [exact Ht|].
  exact (@do_POST_log_terminated externals state alpha_mixed_batch one_entry
           "alpha" Ht).
Defined.


Lemma created_only_when_all_checks_pass_witness :
  status (@do_POST externals state alpha_batch one_entry).1 = 201 ∧
  ∃ agent_id entries,
    authenticate state alpha_batch = Ok agent_id ∧
    entries_route (PyStr.rstrip_char "/" (url_path alpha_batch)) = Some agent_id ∧
    @submitted_entries externals alpha_batch = Some entries ∧
    @write_admitted externals state agent_id one_entry ∧
    Forall (λ e, entry_accepted e = true) entries ∧
    @do_POST externals state alpha_batch one_entry =
    (_json_response 201
       (JDict {[ "ok" := JBool true;
                 "written" := JInt (Z.of_nat (length entries)) ]}),
     <[log_path state agent_id :=
         File (log_content state agent_id one_entry
               +:+ @lines_of externals entries)]>
       (Fs.make_dirs (Path.parent (log_path state agent_id)) one_entry)).
Proof.
  split; [reflexivity|].
  exact (@created_only_when_all_checks_pass externals state alpha_batch
           one_entry eq_refl).
Defined.

Lemma route_agent_id_is_one_segment_witness :
  entries_route "//v1/agents//alpha/entries" = Some "alpha" ∧
  Path.join (allowed_root (agent_fs state "alpha")) "entries.jsonl" =
    data_dir (config state) ++ ["agents"; "alpha"; "entries.jsonl"].
Proof.
  split; [reflexivity|].
  apply (route_agent_id_is_one_segment state "//v1/agents//alpha/entries"
           "alpha" eq_refl).
  discriminate.
Defined.

